(** * Update synchronisation of a two-party state channel

    A shallow embedding of the protocol's two entry points, [outbound]
    (the driver of a locally proposed update) and [inbound] (the handler of
    a counterparty message, with its classification routine
    [processChannelMessage]), and the properties of the specification that
    concern them.

    Modelling choices, all read off the TypeScript source:
    - nonces go through [BigNumber] arithmetic, which is unbounded, so they
      are integers of [Z];
    - an [async] function is a function from the world it starts in to an
      outcome and the world it leaves: the world holds the Channel Store
      (a finite map keyed by channel address), the chronological log of
      the externally visible effects (messages handed to the Messaging
      Channel, posts to the two event streams, delays), and the script of
      what the environment does during the successive round-trip attempts
      of an outbound call;
    - the consumed capabilities (update application, signature
      verification, signer, persistence and transport failures) are
      parameters of the development. A capability that the source guards
      with [try]/[catch] returns either a JavaScript error or its result;
    - a post to the error stream runs, in the poster, the matchers that
      pending outbound attempts have piped onto it. The updates of these
      attempts are a parameter of [inbound], whose post hands over a
      field it has not looked at. *)

From Stdlib Require Import ZArith String List Bool Lia.
From stdpp Require Import gmap strings list.

Local Open Scope Z_scope.
Local Open Scope string_scope.

(** ** Data model *)

(** A JavaScript [Error] as the source reads it: [e.message], [e.stack]. *)
Record JsError := mkJsError { message : string; stack : string }.

Inductive UpdateType :=
| setup
| otherUpdateType (tag : string).

Definition isSetup (t : UpdateType) : bool :=
  match t with setup => true | otherUpdateType _ => false end.

Module MultisigCommitment.
(** The commitment of an update: the ordered signatures it carries and
    the data that is hashed and signed. *)
Record t := mk { signatures : list string; digestInput : string }.

(** Modelled from the spec: [addSignature] is declared outside the
    protocol file. A commitment "carries an ordered set of signatures",
    an update is immutable, and countersigning "attach[es] the second
    signature": the result is a commitment with the signature appended.
    The protocol file uses the result only; whether the receiver changes
    as well is not visible there, and it is modelled as left as it
    was. *)
Definition addSignature (c : t) (sig : string) : t :=
  {| signatures := signatures c ++ [sig]; digestInput := digestInput c |}.
End MultisigCommitment.
Abbreviation MultisigCommitment := MultisigCommitment.t.

Module ChannelUpdate.
Record t := mk {
  channelAddress : string;
  nonce : Z;
  counterpartyPublicIdentifier : string;
  type : UpdateType;
  commitment : MultisigCommitment;
  details : string
}.

(** [{ ...requestedUpdate, commitment: signed }] *)
Definition withCommitment (u : t) (c : MultisigCommitment) : t :=
  {| channelAddress := channelAddress u;
     nonce := nonce u;
     counterpartyPublicIdentifier := counterpartyPublicIdentifier u;
     type := type u;
     commitment := c;
     details := details u |}.

Definition signatureCount (u : t) : nat :=
  length (MultisigCommitment.signatures (commitment u)).
End ChannelUpdate.
Abbreviation ChannelUpdate := ChannelUpdate.t.

Module ChannelState.
Record t := mk {
  channelAddress : string;
  participants : list string;
  chainId : Z;
  latestNonce : Z;
  latestUpdate : option ChannelUpdate
}.
End ChannelState.
Abbreviation ChannelState := ChannelState.t.

(** Modelled from the spec: the table [ChannelUpdateError.reasons] is
    declared outside the protocol file; these are the reason codes of the
    closed taxonomy. The source spells the sixth one [applyUpdateFailed]. *)
Inductive Reason :=
| ChannelNotFound
| BadSignatures
| StaleUpdateNonce
| StaleChannelNonce
| StaleChannelNonceNoUpdate
| ApplyUpdateFailed
| SaveChannelFailed
| MessageFailed.

Definition Reason_eqb (a b : Reason) : bool :=
  match a, b with
  | ChannelNotFound, ChannelNotFound
  | BadSignatures, BadSignatures
  | StaleUpdateNonce, StaleUpdateNonce
  | StaleChannelNonce, StaleChannelNonce
  | StaleChannelNonceNoUpdate, StaleChannelNonceNoUpdate
  | ApplyUpdateFailed, ApplyUpdateFailed
  | SaveChannelFailed, SaveChannelFailed
  | MessageFailed, MessageFailed => true
  | _, _ => false
  end.

Module ErrorContext.
(** The optional fourth argument of the error constructor: an object
    with any of these keys. *)
Record t := mk {
  counterpartyLatestUpdate : option ChannelUpdate;
  requestedUpdate : option ChannelUpdate;
  error : option string;
  stack : option string
}.
Definition none : t := mk None None None None.
End ErrorContext.
Abbreviation ErrorContext := ErrorContext.t.

Module ChannelUpdateError.
(** [new ChannelUpdateError(reason, update, state, context?)]. Both the
    update and the state can be [undefined] at a call site. *)
Record t := mk {
  message : Reason;
  update : option ChannelUpdate;
  state : option ChannelState;
  context : ErrorContext
}.
End ChannelUpdateError.
Abbreviation ChannelUpdateError := ChannelUpdateError.t.

(** What is handed to [messagingService.send]: the data of a channel
    message, [{ update, latestUpdate }], or an error. *)
Inductive Payload :=
| ChannelData (update : ChannelUpdate) (latestUpdate : option ChannelUpdate)
| ErrorPayload (error : ChannelUpdateError).

Module VectorMessage.
(** The wire envelope as a JavaScript object: a channel message has
    [data], an error message has [error]; nothing forces either to be
    there. *)
Record t := mk {
  from : string;
  data : option (ChannelUpdate * option ChannelUpdate);
  error : option ChannelUpdateError
}.
End VectorMessage.
Abbreviation VectorMessage := VectorMessage.t.

(** Modelled from the spec: [isChannelMessage] is declared in the utilities
    outside the protocol file. The handler "dispatches on this variant",
    and the channel-message variant is the one with a [data] field. *)
Definition isChannelMessage (m : VectorMessage) : bool :=
  match VectorMessage.data m with Some _ => true | None => false end.

(** ** The world of an asynchronous call *)

(** The externally visible effects, in the order they happen. *)
Inductive Effect :=
| Sent (to : string) (payload : Payload)
| PostedError (e : option ChannelUpdateError)
| PostedState (s : ChannelState)
| Delayed (ms : Z).

(** What the environment does while one round-trip attempt is pending:
    events arriving on the two streams, and the transport refusing the
    message. *)
Inductive Occurrence :=
| ErrorEvent (e : option ChannelUpdateError)
| StateEvent (s : ChannelState)
| SendFailed (e : JsError).

Record World := mkWorld {
  store : gmap string ChannelState;
  log : list Effect;
  script : list (list Occurrence)
}.

(** The world after more effects have been logged. *)
Definition logged (w : World) (effects : list Effect) : World :=
  {| store := store w; log := log w ++ effects; script := script w |}.

(** The world after a state has been written to the store. *)
Definition persisted (w : World) (state : ChannelState) : World :=
  {| store := <[ChannelState.channelAddress state := state]> (store w);
     log := log w;
     script := script w |}.

(** A value that a promise rejects with. *)
Inductive Thrown :=
| ThrowUpdateError (e : ChannelUpdateError)
| ThrowError (e : JsError)
| ThrowString (s : string).

Inductive Outcome (A : Type) :=
| Resolved (a : A)
| Rejected (t : Thrown)
| Pending.
Arguments Resolved {A} a.
Arguments Rejected {A} t.
Arguments Pending {A}.

Definition Async (A : Type) : Type := World -> Outcome A * World.

Definition ret {A} (a : A) : Async A := fun w => (Resolved a, w).

Definition throw {A} (t : Thrown) : Async A := fun w => (Rejected t, w).

Definition bind {A B} (m : Async A) (k : A -> Async B) : Async B :=
  fun w =>
    match m w with
    | (Resolved a, w') => k a w'
    | (Rejected t, w') => (Rejected t, w')
    | (Pending, w') => (Pending, w')
    end.

(** [try { m } catch (e) { h(e) }] *)
Definition tryCatch {A} (m : Async A) (h : Thrown -> Async A) : Async A :=
  fun w =>
    match m w with
    | (Rejected t, w') => h t w'
    | r => r
    end.

Notation "x <- m ;; k" := (bind m (fun x => k))
  (at level 90, m at level 80, right associativity, only parsing).
Notation "m ;;; k" := (bind m (fun _ => k))
  (at level 90, right associativity, only parsing).

Definition emit (e : Effect) : Async unit :=
  fun w => (Resolved tt, logged w [e]).

(** [errorEvt.post(e)] of an error that carries its update, and
    [stateEvt.post(s)]: the event is handed to the stream and the matchers
    piped onto it read it without throwing. It is the post of
    [handleError], whose errors are all built around the requested
    update. The post of [inbound], which hands over a field nobody has
    looked at, is [postUnchecked] below. *)
Definition postError (e : option ChannelUpdateError) : Async unit :=
  emit (PostedError e).
Definition postState (s : ChannelState) : Async unit :=
  emit (PostedState s).

(** [delay(ms)] *)
Definition delay (ms : Z) : Async unit := emit (Delayed ms).

(** [storeService.getChannelState(channelAddress)] *)
Definition getChannelState (channelAddress : string)
  : Async (option ChannelState) :=
  fun w => (Resolved (store w !! channelAddress), w).

(** The [TypeError] that reading a property of [undefined] raises. The
    wording of its message is the engine's; nothing below depends on it. *)
Definition typeErrorOfUndefined (property : string) : JsError :=
  {| message := "Cannot read property '" ++ property ++ "' of undefined";
     stack := "TypeError" |}.

(** ** The consumed capabilities *)

(** The signer: its identifier, the chain id its provider reports
    ([(await signer.provider.getNetwork()).chainId]) and [signMessage]. *)
Record Signer := mkSigner {
  publicIdentifier : string;
  networkChainId : Z;
  signMessage : string -> JsError + string
}.

Section Protocol.

(** [applyUpdate(update, state)] of the update module: the next state, or
    the error it throws. *)
Variable applyUpdate : ChannelUpdate -> ChannelState -> JsError + ChannelState.

(** [commitment.assertSignatures()]: the error it throws, if any. *)
Variable assertSignatures : MultisigCommitment -> option JsError.

(** [commitment.getHash()] *)
Variable getHash : MultisigCommitment -> string.

Variable signer : Signer.

(** The persistence error of [storeService.saveChannelState(state)], if
    the store refuses the write. *)
Variable saveFault : ChannelState -> option JsError.

(** The transport error of a [messagingService.send(to, payload)] made by
    the inbound handler, if the transport refuses the message. (The sends
    of an outbound attempt are refused by the script of the world, where
    their order with the events matters.) *)
Variable sendFault : string -> Payload -> option JsError.

(** [try { await storeService.saveChannelState(state) } catch (e) ...]:
    the caught error when the store refuses; otherwise the state is
    written under its channel address. Every call of the source is
    guarded this way. *)
Definition saveChannelState (state : ChannelState) : Async (option JsError) :=
  fun w =>
    match saveFault state with
    | Some e => (Resolved (Some e), w)
    | None => (Resolved None, persisted w state)
    end.

(** [await messagingService.send(to, payload)], unguarded: the call is
    logged, and a refusal of the transport rejects the caller. *)
Definition send (to : string) (payload : Payload) : Async unit :=
  fun w =>
    let w' := logged w [Sent to payload] in
    match sendFault to payload with
    | Some e => (Rejected (ThrowError e), w')
    | None => (Resolved tt, w')
    end.

(** ** The outbound driver *)

(** The matcher piped onto [errorEvt] by an attempt. Reading
    [e.update.nonce] of an [undefined] event or update throws in the
    poster and leaves the attempt as it is: [None]. *)
Definition errorMatcher (update : ChannelUpdate)
    (e : option ChannelUpdateError) : option bool :=
  match e with
  | None => None
  | Some e =>
      match ChannelUpdateError.update e with
      | None => None
      | Some eUpdate =>
          Some (Z.eqb (ChannelUpdate.nonce eUpdate) (ChannelUpdate.nonce update)
                && String.eqb (ChannelUpdate.channelAddress eUpdate)
                              (ChannelUpdate.channelAddress eUpdate))
      end
  end.

(** The matcher piped onto [stateEvt]. *)
Definition stateMatcher (update : ChannelUpdate) (e : ChannelState) : bool :=
  String.eqb (ChannelState.channelAddress e)
             (ChannelUpdate.channelAddress update)
  && Z.eqb (ChannelState.latestNonce e) (ChannelUpdate.nonce update).

(** How the promise of one attempt settles, given what happens while it
    is pending: the first matching event resolves it, the transport
    refusing the message rejects it with the error's message, and a
    settled promise ignores everything after. With nothing that settles
    it the promise stays pending. *)
Fixpoint settle (update : ChannelUpdate) (occurrences : list Occurrence)
  : Outcome (ChannelState + ChannelUpdateError) :=
  match occurrences with
  | [] => Pending
  | ErrorEvent e :: rest =>
      match e, errorMatcher update e with
      | Some err, Some true => Resolved (inr err)
      | _, _ => settle update rest
      end
  | StateEvent s :: rest =>
      if stateMatcher update s then Resolved (inl s) else settle update rest
  | SendFailed e :: _ => Rejected (ThrowString (message e))
  end.

(** One round-trip attempt: the message is handed to the Messaging
    Channel and the promise settles by the next entry of the script. *)
Definition generatePromise (update : ChannelUpdate)
    (storedChannel : ChannelState)
  : Async (ChannelState + ChannelUpdateError) :=
  fun w =>
    (settle update (hd [] (script w)),
     {| store := store w;
        log := log w
               ++ [Sent (ChannelUpdate.counterpartyPublicIdentifier update)
                        (ChannelData update
                           (ChannelState.latestUpdate storedChannel))];
        script := tl (script w) |}).

(** The body of [for (const _ of Array(5).fill(0))], by recursion on the
    array. *)
Fixpoint retryEach (slots : list Z) (update : ChannelUpdate)
    (storedChannel : ChannelState)
  : Async (ChannelState + ChannelUpdateError) :=
  match slots with
  | [] =>
      throw (ThrowUpdateError
               (ChannelUpdateError.mk MessageFailed (Some update)
                  (Some storedChannel) ErrorContext.none))
  | _ :: rest =>
      attempt <-
        tryCatch
          (result <- generatePromise update storedChannel ;; ret (Some result))
          (fun _ => delay 3000 ;;; ret None) ;;
      match attempt with
      | Some result => ret result
      | None => retryEach rest update storedChannel
      end
  end.

(** Retry sending the message 5 times w/3s delay *)
Definition sendWithRetry (update : ChannelUpdate)
    (storedChannel : ChannelState)
  : Async (ChannelState + ChannelUpdateError) :=
  retryEach (repeat 0 5) update storedChannel.

(** [if (error)] on a [string | undefined]. *)
Definition truthy (error : option string) : bool :=
  match error with
  | Some m => negb (String.eqb m "")
  | None => false
  end.

Definition outbound (update : ChannelUpdate) : Async ChannelState :=
  stored <- getChannelState (ChannelUpdate.channelAddress update) ;;
  match stored with
  | None =>
      throw (ThrowUpdateError
               (ChannelUpdateError.mk ChannelNotFound (Some update) None
                  ErrorContext.none))
  | Some storedChannel =>
  result <- sendWithRetry update storedChannel ;;
  match result with
  | inl newState =>
      (* No error returned, successfully updated state *)
      ret newState
  | inr result =>
  (* The only error we should handle and retry is the case where we are
     one state behind *)
  if negb (Reason_eqb (ChannelUpdateError.message result) StaleUpdateNonce)
  then
    throw (ThrowUpdateError
             (ChannelUpdateError.mk (ChannelUpdateError.message result)
                (Some update) (Some storedChannel) ErrorContext.none))
  else
  match ChannelUpdateError.state result with
  | None => throw (ThrowError (typeErrorOfUndefined "latestUpdate"))
  | Some counterpartyState =>
  (* Make sure the update exists *)
  match ChannelState.latestUpdate counterpartyState with
  | None =>
      throw (ThrowUpdateError
               (ChannelUpdateError.mk StaleChannelNonceNoUpdate (Some update)
                  (Some storedChannel) ErrorContext.none))
  | Some latest =>
  (* Make sure the update is the correct one *)
  if negb (Z.eqb (ChannelUpdate.nonce latest) (ChannelUpdate.nonce update))
  then
    throw (ThrowUpdateError
             (ChannelUpdateError.mk StaleChannelNonce (Some update)
                (Some storedChannel)
                (ErrorContext.mk (Some latest) None None None)))
  else
  (* Apply the update, and retry the update *)
  match applyUpdate latest storedChannel with
  | inl _ =>
      throw (ThrowUpdateError
               (ChannelUpdateError.mk ApplyUpdateFailed (Some latest)
                  (Some storedChannel) ErrorContext.none))
  | inr newState =>
  (* Save the updated state before retrying the update *)
  saved <- saveChannelState newState ;;
  let error := option_map message saved in
  if truthy error then
    throw (ThrowUpdateError
             (ChannelUpdateError.mk SaveChannelFailed (Some latest)
                (Some storedChannel) ErrorContext.none))
  else
  (* Retry the update *)
  syncedResult <- sendWithRetry update storedChannel ;;
  match syncedResult with
  | inr syncedError =>
      throw (ThrowUpdateError
               (ChannelUpdateError.mk (ChannelUpdateError.message syncedError)
                  (Some update) (Some newState) ErrorContext.none))
  | inl syncedState => ret syncedState
  end
  end
  end
  end
  end
  end.

(** ** The inbound handler *)

(** The helper that [processChannelMessage] closes over [from] and
    [requestedUpdate]. *)
Definition handleError {A} (from : string) (requestedUpdate : ChannelUpdate)
    (error : ChannelUpdateError) : Async A :=
  (if Nat.eqb (ChannelUpdate.signatureCount requestedUpdate) 1
   then send from (ErrorPayload error)
   else ret tt) ;;;
  postError (Some error) ;;;
  throw (ThrowUpdateError error).

(** The two [assertSignatures] calls of the [try] block: the error that
    the [catch] receives, if any. Reading [.commitment] of an [undefined]
    latest update raises a [TypeError] inside the same block. *)
Definition verifySignatures (requestedUpdate : ChannelUpdate)
    (counterpartyLatestUpdate : option ChannelUpdate) : option JsError :=
  match assertSignatures (ChannelUpdate.commitment requestedUpdate) with
  | Some e => Some e
  | None =>
      match counterpartyLatestUpdate with
      | None => Some (typeErrorOfUndefined "commitment")
      | Some latest => assertSignatures (ChannelUpdate.commitment latest)
      end
  end.

(** The empty channel state created for a first [setup] update. *)
Definition emptyChannelState (requestedUpdate : ChannelUpdate) : ChannelState :=
  {| ChannelState.channelAddress := ChannelUpdate.channelAddress requestedUpdate;
     ChannelState.participants :=
       [ChannelUpdate.counterpartyPublicIdentifier requestedUpdate;
        publicIdentifier signer];
     ChannelState.chainId := networkChainId signer;
     ChannelState.latestNonce := 0;
     ChannelState.latestUpdate := None |}.

Definition processChannelMessage (from : string)
    (data : ChannelUpdate * option ChannelUpdate) : Async unit :=
  let requestedUpdate := fst data in
  let counterpartyLatestUpdate := snd data in
  let handleError {A} : ChannelUpdateError -> Async A :=
    handleError from requestedUpdate in
  (* Get our latest stored state *)
  stored <- getChannelState (ChannelUpdate.channelAddress requestedUpdate) ;;
  storedState <-
    match stored with
    | Some s => ret s
    | None =>
        if negb (isSetup (ChannelUpdate.type requestedUpdate))
        then handleError
               (ChannelUpdateError.mk ChannelNotFound (Some requestedUpdate)
                  None ErrorContext.none)
        else ret (emptyChannelState requestedUpdate)
    end ;;
  (* Before proceeding, verify any signatures present are correct *)
  match verifySignatures requestedUpdate counterpartyLatestUpdate with
  | Some e =>
      handleError
        (ChannelUpdateError.mk BadSignatures (Some requestedUpdate)
           (Some storedState)
           (ErrorContext.mk counterpartyLatestUpdate None
              (Some (message e)) None))
  | None =>
  (* Get the difference between the stored and received nonces *)
  let diff := ChannelUpdate.nonce requestedUpdate
              - ChannelState.latestNonce storedState in
  if Z.leb diff 0 then
    handleError
      (ChannelUpdateError.mk StaleUpdateNonce (Some requestedUpdate)
         (Some storedState)
         (ErrorContext.mk counterpartyLatestUpdate None None None))
  else if Z.geb diff 3 then
    handleError
      (ChannelUpdateError.mk StaleChannelNonce (Some requestedUpdate)
         (Some storedState)
         (ErrorContext.mk counterpartyLatestUpdate None None None))
  else
  previousState <-
    (if Z.eqb diff 2 then
       match counterpartyLatestUpdate with
       | None =>
           handleError
             (ChannelUpdateError.mk StaleChannelNonceNoUpdate
                counterpartyLatestUpdate (Some storedState)
                (ErrorContext.mk None (Some requestedUpdate) None None))
       | Some latest =>
           match applyUpdate latest storedState with
           | inr resynced => ret resynced
           | inl e =>
               handleError
                 (ChannelUpdateError.mk ApplyUpdateFailed
                    counterpartyLatestUpdate (Some storedState)
                    (ErrorContext.mk None (Some requestedUpdate)
                       (Some (message e)) (Some (stack e))))
           end
       end
     else ret storedState) ;;
  (* We now have the latest state for the update *)
  match applyUpdate requestedUpdate previousState with
  | inl e =>
      handleError
        (ChannelUpdateError.mk ApplyUpdateFailed (Some requestedUpdate)
           (Some previousState)
           (ErrorContext.mk counterpartyLatestUpdate None
              (Some (message e)) None))
  | inr response =>
      let saveFailed (e : JsError) : ChannelUpdateError :=
        ChannelUpdateError.mk SaveChannelFailed (Some requestedUpdate)
          (Some previousState)
          (ErrorContext.mk None None (Some (message e)) None) in
      if Nat.eqb (ChannelUpdate.signatureCount requestedUpdate) 1 then
        (* single signed: sign the update, save, and send the ack *)
        match signMessage signer
                (getHash (ChannelUpdate.commitment requestedUpdate)) with
        | inl e => handleError (saveFailed e)
        | inr sig =>
            let signed :=
              MultisigCommitment.addSignature
                (ChannelUpdate.commitment requestedUpdate) sig in
            saved <- saveChannelState response ;;
            match saved with
            | Some e => handleError (saveFailed e)
            | None =>
                send from
                  (ChannelData
                     (ChannelUpdate.withCommitment requestedUpdate signed)
                     (ChannelState.latestUpdate response))
            end
        end
      else
        (* an ack: save the update to store and post to the EVT *)
        saved <- saveChannelState response ;;
        match saved with
        | Some e => handleError (saveFailed e)
        | None => postState response
        end
  end
  end.

(** The updates of the outbound attempts that are pending when a message
    comes in: each has its matcher piped onto [errorEvt], and
    [errorEvt.post] runs these matchers in the poster. *)
Variable listeners : list ChannelUpdate.

(** Whether the matcher of the attempt for [update] throws on the posted
    event: it reads [e.update.nonce]. *)
Definition throwsOn (e : option ChannelUpdateError) (update : ChannelUpdate)
  : bool :=
  match errorMatcher update e with
  | None => true
  | Some _ => false
  end.

(** The [TypeError] of that read: of [update] when the event is
    [undefined], of [nonce] when its update is. *)
Definition readFault (e : option ChannelUpdateError) : JsError :=
  typeErrorOfUndefined
    match e with
    | None => "update"
    | Some _ => "nonce"
    end.

(** [errorEvt.post(e)] of a value that was not checked: the event is
    handed to the stream, and a matcher that throws on it throws in the
    poster. *)
Definition postUnchecked (e : option ChannelUpdateError) : Async unit :=
  postError e ;;;
  if existsb (throwsOn e) listeners
  then throw (ThrowError (readFault e))
  else ret tt.

Definition inbound (message : VectorMessage) : Async unit :=
  (* If the message is from us, ignore *)
  if String.eqb (VectorMessage.from message) (publicIdentifier signer)
  then ret tt
  else
    match VectorMessage.data message with
    | Some data =>
        (* isChannelMessage(message) *)
        processChannelMessage (VectorMessage.from message) data
    | None =>
        (* taken to be an error message from a counterparty *)
        postUnchecked (VectorMessage.error message)
    end.

(** ** Vocabulary of the properties *)

(** The reply that an error path owes the sender. *)
Definition errorReply (from : string) (requestedUpdate : ChannelUpdate)
    (error : ChannelUpdateError) : list Effect :=
  if Nat.eqb (ChannelUpdate.signatureCount requestedUpdate) 1
  then [Sent from (ErrorPayload error)]
  else [].

(** The state that the classification runs against: the stored one, or
    the empty one of a first [setup] update; none for an unknown channel
    and any other update. *)
Definition classifiedAgainst (requestedUpdate : ChannelUpdate) (w : World)
  : option ChannelState :=
  match store w !! ChannelUpdate.channelAddress requestedUpdate with
  | Some s => Some s
  | None =>
      if isSetup (ChannelUpdate.type requestedUpdate)
      then Some (emptyChannelState requestedUpdate)
      else None
  end.

(** The message that every attempt of an outbound call sends. *)
Definition attemptMessage (update : ChannelUpdate)
    (storedChannel : ChannelState) : Effect :=
  Sent (ChannelUpdate.counterpartyPublicIdentifier update)
       (ChannelData update (ChannelState.latestUpdate storedChannel)).

(** The world once an attempt has been made: its message is logged and
    its entry of the script is consumed. *)
Definition attempted (update : ChannelUpdate) (storedChannel : ChannelState)
    (w : World) : World :=
  {| store := store w;
     log := log w ++ [attemptMessage update storedChannel];
     script := tl (script w) |}.

(** What [j] attempts rejected by the transport leave in the log: each
    one its message, then the delay. *)
Fixpoint failedAttempts (update : ChannelUpdate)
    (storedChannel : ChannelState) (j : nat) : list Effect :=
  match j with
  | O => []
  | S j' =>
      attemptMessage update storedChannel :: Delayed 3000
      :: failedAttempts update storedChannel j'
  end.

(** What one round of the driver leaves in the log when [j] of its
    attempts were rejected by the transport: the failed attempts, then,
    unless all 5 attempts failed, the attempt that ended the round. *)
Definition roundLog (update : ChannelUpdate) (storedChannel : ChannelState)
    (j : nat) : list Effect :=
  failedAttempts update storedChannel j
  ++ (if Nat.eqb j 5 then [] else [attemptMessage update storedChannel]).

(** The error that ends a round whose attempts were all rejected. *)
Definition messageFailed (update : ChannelUpdate)
    (storedChannel : ChannelState) : Thrown :=
  ThrowUpdateError
    (ChannelUpdateError.mk MessageFailed (Some update) (Some storedChannel)
       ErrorContext.none).

(** How a call of [outbound] ends once it has resynced, given how its
    second round ended: the round's state is returned, its error is
    thrown with the same reason, and nothing more is tried. *)
Definition propagated (update : ChannelUpdate) (newState : ChannelState)
    (round : Outcome (ChannelState + ChannelUpdateError) * World)
  : Outcome ChannelState * World :=
  match round with
  | (Resolved (inl syncedState), w) => (Resolved syncedState, w)
  | (Resolved (inr syncedError), w) =>
      (Rejected
         (ThrowUpdateError
            (ChannelUpdateError.mk (ChannelUpdateError.message syncedError)
               (Some update) (Some newState) ErrorContext.none)), w)
  | (Rejected t, w) => (Rejected t, w)
  | (Pending, w) => (Pending, w)
  end.

(** The rejections of the classification routine, by cause, for an update
    classified against [storedState]: bad signatures, an update that does
    not progress the nonce, a gap of three or more, a gap of two without
    the material to resync or with material that does not apply, and a
    requested update that does not apply to the state it should extend. *)
Inductive RejectedUpdate (requestedUpdate : ChannelUpdate)
    (latest : option ChannelUpdate) (storedState : ChannelState) : Prop :=
| rejected_bad_signatures :
    verifySignatures requestedUpdate latest <> None ->
    RejectedUpdate requestedUpdate latest storedState
| rejected_stale_update :
    ChannelUpdate.nonce requestedUpdate
    - ChannelState.latestNonce storedState <= 0 ->
    RejectedUpdate requestedUpdate latest storedState
| rejected_gap :
    3 <= ChannelUpdate.nonce requestedUpdate
         - ChannelState.latestNonce storedState ->
    RejectedUpdate requestedUpdate latest storedState
| rejected_no_resync_material :
    ChannelUpdate.nonce requestedUpdate
    - ChannelState.latestNonce storedState = 2 ->
    latest = None ->
    RejectedUpdate requestedUpdate latest storedState
| rejected_resync_application (update : ChannelUpdate) (e : JsError) :
    ChannelUpdate.nonce requestedUpdate
    - ChannelState.latestNonce storedState = 2 ->
    latest = Some update ->
    applyUpdate update storedState = inl e ->
    RejectedUpdate requestedUpdate latest storedState
| rejected_application (e : JsError) :
    ChannelUpdate.nonce requestedUpdate
    - ChannelState.latestNonce storedState = 1 ->
    applyUpdate requestedUpdate storedState = inl e ->
    RejectedUpdate requestedUpdate latest storedState
| rejected_application_after_resync (update : ChannelUpdate)
    (resynced : ChannelState) (e : JsError) :
    ChannelUpdate.nonce requestedUpdate
    - ChannelState.latestNonce storedState = 2 ->
    latest = Some update ->
    applyUpdate update storedState = inr resynced ->
    applyUpdate requestedUpdate resynced = inl e ->
    RejectedUpdate requestedUpdate latest storedState.

End Protocol.

(** ** A concrete pair of peers

    Capabilities and data for running the protocol on concrete inputs:
    an update-application function that accepts exactly the update whose
    nonce extends the state by one and records it as the latest update, a
    verifier that refuses a commitment carrying the signature
    ["forged"], a store and a transport that never fail. *)
Module Scenario.

Definition applyUpdate (update : ChannelUpdate) (state : ChannelState)
  : JsError + ChannelState :=
  if Z.eqb (ChannelUpdate.nonce update) (ChannelState.latestNonce state + 1)
  then inr {| ChannelState.channelAddress := ChannelState.channelAddress state;
              ChannelState.participants := ChannelState.participants state;
              ChannelState.chainId := ChannelState.chainId state;
              ChannelState.latestNonce := ChannelUpdate.nonce update;
              ChannelState.latestUpdate := Some update |}
  else inl {| message := "update nonce does not extend the state";
              stack := "applyUpdate" |}.

Definition assertSignatures (c : MultisigCommitment) : option JsError :=
  if existsb (String.eqb "forged") (MultisigCommitment.signatures c)
  then Some {| message := "signature does not recover to a participant";
               stack := "assertSignatures" |}
  else None.

Definition getHash (c : MultisigCommitment) : string :=
  "hash:" ++ MultisigCommitment.digestInput c.

Definition bob : Signer :=
  {| publicIdentifier := "bob";
     networkChainId := 1337;
     signMessage := fun hash => inr ("bob signed " ++ hash) |}.

Definition storeOk (_ : ChannelState) : option JsError := None.
Definition transportOk (_ : string) (_ : Payload) : option JsError := None.

(** A transport that refuses every message. *)
Definition transportDown (_ : string) (_ : Payload) : option JsError :=
  Some {| message := "peer unreachable"; stack := "send" |}.

(** A store that refuses every write with an error of empty message, as
    [new Error()] has. *)
Definition storeSilentlyDown (_ : ChannelState) : option JsError :=
  Some {| message := ""; stack := "saveChannelState" |}.

(** The update of nonce [n] on channel ["0xC"], proposed by alice to bob,
    with the given signatures. *)
Definition updateAt (n : Z) (sigs : list string) : ChannelUpdate :=
  {| ChannelUpdate.channelAddress := "0xC";
     ChannelUpdate.nonce := n;
     ChannelUpdate.counterpartyPublicIdentifier := "bob";
     ChannelUpdate.type := otherUpdateType "deposit";
     ChannelUpdate.commitment :=
       {| MultisigCommitment.signatures := sigs;
          MultisigCommitment.digestInput := "update" |};
     ChannelUpdate.details := "" |}.

(** The dual-signed channel state of nonce [n] on channel ["0xC"]. *)
Definition stateAt (n : Z) : ChannelState :=
  {| ChannelState.channelAddress := "0xC";
     ChannelState.participants := ["alice"; "bob"];
     ChannelState.chainId := 1337;
     ChannelState.latestNonce := n;
     ChannelState.latestUpdate := Some (updateAt n ["alice"; "bob"]) |}.

(** Bob's world with channel ["0xC"] stored at nonce [n]. *)
Definition worldAt (n : Z) : World :=
  {| store := {["0xC" := stateAt n]}; log := []; script := [] |}.

Definition emptyWorld : World :=
  {| store := ∅; log := []; script := [] |}.

(** A [setup] update of nonce [n] for channel ["0xN"], which no store
    knows yet. *)
Definition setupAt (n : Z) (sigs : list string) : ChannelUpdate :=
  {| ChannelUpdate.channelAddress := "0xN";
     ChannelUpdate.nonce := n;
     ChannelUpdate.counterpartyPublicIdentifier := "bob";
     ChannelUpdate.type := setup;
     ChannelUpdate.commitment :=
       {| MultisigCommitment.signatures := sigs;
          MultisigCommitment.digestInput := "setup" |};
     ChannelUpdate.details := "" |}.

(** Alice's world with channel ["0xC"] stored at nonce [n], and what
    happens during the attempts of her next outbound call. *)
Definition aliceAt (n : Z) (happenings : list (list Occurrence)) : World :=
  {| store := {["0xC" := stateAt n]}; log := []; script := happenings |}.

(** The error with which bob, at nonce [n], answers alice's proposal of
    nonce [n]. *)
Definition staleAt (n : Z) : ChannelUpdateError :=
  ChannelUpdateError.mk StaleUpdateNonce (Some (updateAt n ["alice"]))
    (Some (stateAt n))
    (ErrorContext.mk (Some (updateAt (n - 1) ["alice"; "bob"])) None None
       None).

(** An error about an update of nonce 6 on another channel, ["0xD"]. *)
Definition foreignError : ChannelUpdateError :=
  ChannelUpdateError.mk BadSignatures
    (Some {| ChannelUpdate.channelAddress := "0xD";
             ChannelUpdate.nonce := 6;
             ChannelUpdate.counterpartyPublicIdentifier := "carol";
             ChannelUpdate.type := otherUpdateType "deposit";
             ChannelUpdate.commitment :=
               {| MultisigCommitment.signatures := ["alice"];
                  MultisigCommitment.digestInput := "other" |};
             ChannelUpdate.details := "" |})
    None ErrorContext.none.

(** A signer that cannot sign. *)
Definition lockedBob : Signer :=
  {| publicIdentifier := "bob";
     networkChainId := 1337;
     signMessage := fun _ => inl {| message := "wallet is locked";
                                    stack := "signMessage" |} |}.

(** A store that refuses every write. *)
Definition storeDown (_ : ChannelState) : option JsError :=
  Some {| message := "disk full"; stack := "saveChannelState" |}.

(** A [StaleUpdateNonce] error for nonce 6 that carries no state. *)
Definition staleWithoutState : ChannelUpdateError :=
  ChannelUpdateError.mk StaleUpdateNonce (Some (updateAt 6 ["alice"])) None
    ErrorContext.none.

(** The state of nonce [n] whose latest update carries the signatures
    [sigs]. *)
Definition stateWith (n : Z) (sigs : list string) : ChannelState :=
  {| ChannelState.channelAddress := "0xC";
     ChannelState.participants := ["alice"; "bob"];
     ChannelState.chainId := 1337;
     ChannelState.latestNonce := n;
     ChannelState.latestUpdate := Some (updateAt n sigs) |}.

End Scenario.

(** ** The configuration of the auth module

    [modules/auth/src/config.ts] reads the environment when it is
    loaded: it throws when a variable it requires is missing, and exports
    the [config] object otherwise. *)
Module Config.

Section Load.

(** JavaScript numbers and [parseInt] are the engine's. *)
Variable Number : Type.
Variable parseInt : string -> Number.

Record t := mk {
  messagingUrl : string;
  privateKey : option string;
  publicKey : string;
  adminToken : string;
  port : Number
}.

(** [if (!value) { throw new Error(`NAME is required`); }]: the message
    of the error, or the value, now known to be a string. *)
Definition required (value : option string) (name : string)
  : string + string :=
  if negb (truthy value) then inl (name ++ " is required")
  else inr (default "" value).

(** The evaluation of the module on [process.env]: the message of the
    error it throws, or the exported [config]. *)
Definition load (env : gmap string string) : string + t :=
  let publicKey := env !! "VECTOR_NATS_JWT_SIGNER_PUBLIC_KEY" in
  match required publicKey "VECTOR_NATS_JWT_SIGNER_PUBLIC_KEY" with
  | inl e => inl e
  | inr publicKey' =>
  let privateKey := env !! "VECTOR_NATS_JWT_SIGNER_PRIVATE_KEY" in
  (* the source tests [publicKey] here *)
  match required publicKey "VECTOR_NATS_JWT_SIGNER_PRIVATE_KEY" with
  | inl e => inl e
  | inr _ =>
  let natsServers := env !! "VECTOR_NATS_SERVERS" in
  match required natsServers "VECTOR_NATS_SERVERS" with
  | inl e => inl e
  | inr natsServers' =>
  let adminToken := env !! "VECTOR_ADMIN_TOKEN" in
  match required adminToken "VECTOR_ADMIN_TOKEN" with
  | inl e => inl e
  | inr adminToken' =>
      inr {| messagingUrl := natsServers';
             privateKey := privateKey;
             publicKey := publicKey';
             adminToken := adminToken';
             port := parseInt (default "5040" (env !! "VECTOR_PORT")) |}
  end
  end
  end
  end.

(** A variable that is set and not empty. *)
Definition provided (env : gmap string string) (name value : string) : Prop :=
  env !! name = Some value /\ value <> "".

End Load.

End Config.

(** ** Properties of the inbound handler *)

Local Open Scope list_scope.

Lemma logged_logged (w : World) (xs ys : list Effect) :
  logged (logged w xs) ys = logged w (xs ++ ys).
Proof. unfold logged. simpl. by rewrite app_assoc. Qed.

Section InboundProperties.

Variable applyUpdate : ChannelUpdate -> ChannelState -> JsError + ChannelState.
Variable assertSignatures : MultisigCommitment -> option JsError.
Variable getHash : MultisigCommitment -> string.
Variable signer : Signer.
Variable saveFault : ChannelState -> option JsError.
Variable sendFault : string -> Payload -> option JsError.
Variable listeners : list ChannelUpdate.

Local Abbreviation process :=
  (processChannelMessage applyUpdate assertSignatures getHash signer
     saveFault sendFault).
Local Abbreviation fail := (@handleError sendFault unit).
Local Abbreviation verify := (verifySignatures assertSignatures).
Local Abbreviation prior := (classifiedAgainst signer).

(** [handleError], run: the reply when one is due, then the post, then
    the throw; a refused reply ends the helper before the post. *)
Lemma handleError_run {A} from requestedUpdate error (w : World) :
  @handleError sendFault A from requestedUpdate error w =
  if Nat.eqb (ChannelUpdate.signatureCount requestedUpdate) 1 then
    match sendFault from (ErrorPayload error) with
    | Some e =>
        (Rejected (ThrowError e), logged w [Sent from (ErrorPayload error)])
    | None =>
        (Rejected (ThrowUpdateError error),
         logged w [Sent from (ErrorPayload error); PostedError (Some error)])
    end
  else (Rejected (ThrowUpdateError error), logged w [PostedError (Some error)]).
Proof.
  unfold handleError, bind, send, postError, emit, throw, ret.
  destruct (Nat.eqb _ 1); [destruct (sendFault _ _)|];
    rewrite ?logged_logged; reflexivity.
Qed.

(** An error path ends the function it is called from. *)
Lemma bind_handleError {A B} from requestedUpdate error (k : A -> Async B) w :
  bind (@handleError sendFault A from requestedUpdate error) k w =
  @handleError sendFault B from requestedUpdate error w.
Proof.
  unfold bind. rewrite !handleError_run.
  destruct (Nat.eqb _ 1); [destruct (sendFault _ _)|]; reflexivity.
Qed.

Lemma handleError_store {A} from requestedUpdate error (w : World) :
  store (snd (@handleError sendFault A from requestedUpdate error w)) = store w.
Proof.
  rewrite handleError_run.
  destruct (Nat.eqb _ 1); [destruct (sendFault _ _)|]; reflexivity.
Qed.

Lemma handleError_rejects {A} from requestedUpdate error (w : World) :
  exists t, fst (@handleError sendFault A from requestedUpdate error w)
            = Rejected t.
Proof.
  rewrite handleError_run.
  destruct (Nat.eqb _ 1); [destruct (sendFault _ _)|]; simpl; eauto.
Qed.

(** The first step of the handler: the state it classifies against, or
    the error path of an unknown channel. *)
Lemma process_unknown_channel from requestedUpdate latest (w : World) :
  prior requestedUpdate w = None ->
  process from (requestedUpdate, latest) w =
  fail from requestedUpdate
    (ChannelUpdateError.mk ChannelNotFound (Some requestedUpdate) None
       ErrorContext.none) w.
Proof.
  unfold classifiedAgainst, processChannelMessage. intros H.
  cbv zeta. unfold bind at 1. unfold getChannelState. simpl fst in *.
  destruct (store w !! _); [discriminate|].
  destruct (isSetup _); [discriminate|]. simpl negb. cbv iota.
  apply bind_handleError.
Qed.


Lemma bind_ret {A B} (a : A) (k : A -> Async B) w : bind (ret a) k w = k a w.
Proof. reflexivity. Qed.

Lemma bind_getChannelState {B} address (k : option ChannelState -> Async B) w :
  bind (getChannelState address) k w = k (store w !! address) w.
Proof. reflexivity. Qed.

Lemma bind_saveChannelState {B} state (k : option JsError -> Async B) w :
  bind (saveChannelState saveFault state) k w =
  match saveFault state with
  | Some e => k (Some e) w
  | None => k None (persisted w state)
  end.
Proof.
  unfold bind, saveChannelState. destruct (saveFault state); reflexivity.
Qed.

(** Walks the handler down to its leaves: every [bind] is resolved, every
    test and capability result is split. *)
Ltac inbound_walk :=
  unfold processChannelMessage; cbv zeta; cbn [fst snd];
  repeat first
    [ rewrite bind_getChannelState
    | rewrite bind_ret
    | rewrite bind_handleError
    | rewrite bind_saveChannelState
    | match goal with
      | |- context [bind (if negb ?x then _ else _) _ _] =>
          destruct x eqn:?; cbn [negb]
      | |- context [bind (match ?x with _ => _ end) _ _] =>
          destruct x eqn:?
      | |- context [bind (if ?x then _ else _) _ _] => destruct x eqn:?
      end
    | match goal with
      | |- context [match ?x with _ => _ end] =>
          lazymatch x with
          | context [bind] => fail
          | context [handleError] => fail
          | context [send] => fail
          | _ => destruct x eqn:?
          end
      end ];
  cbn [negb] in *.

(** Turns the boolean tests on the nonce difference into arithmetic. *)
Ltac nonce_facts :=
  repeat match goal with
  | H : Z.geb _ _ = _ |- _ => rewrite Z.geb_leb in H
  | H : Z.leb _ _ = true |- _ => apply Z.leb_le in H
  | H : Z.leb _ _ = false |- _ => apply Z.leb_gt in H
  | H : Z.eqb _ _ = true |- _ => apply Z.eqb_eq in H
  | H : Z.eqb _ _ = false |- _ => apply Z.eqb_neq in H
  end.

(** A verified message has its latest update attached. *)
Lemma verify_absent requestedUpdate : verify requestedUpdate None <> None.
Proof.
  unfold verifySignatures. destruct (assertSignatures _); discriminate.
Qed.

(** The three ways the handler ends: on the error path, by
    countersigning a proposal and replying, or by storing an ack and
    publishing the state. The error of the error path is never
    [StaleChannelNonceNoUpdate]. *)
Lemma process_paths from requestedUpdate latest (w : World) :
  (exists error,
     ChannelUpdateError.message error <> StaleChannelNonceNoUpdate /\
     process from (requestedUpdate, latest) w
     = fail from requestedUpdate error w)
  \/ (exists previousState response sig,
        applyUpdate requestedUpdate previousState = inr response /\
        ChannelUpdate.signatureCount requestedUpdate = 1%nat /\
        signMessage signer (getHash (ChannelUpdate.commitment requestedUpdate))
        = inr sig /\
        saveFault response = None /\
        process from (requestedUpdate, latest) w
        = send sendFault from
            (ChannelData
               (ChannelUpdate.withCommitment requestedUpdate
                  (MultisigCommitment.addSignature
                     (ChannelUpdate.commitment requestedUpdate) sig))
               (ChannelState.latestUpdate response))
            (persisted w response))
  \/ (exists previousState response,
        applyUpdate requestedUpdate previousState = inr response /\
        ChannelUpdate.signatureCount requestedUpdate <> 1%nat /\
        saveFault response = None /\
        process from (requestedUpdate, latest) w
        = (Resolved tt, logged (persisted w response) [PostedState response])).
Proof.
  inbound_walk;
    try (left; eexists; split; [|reflexivity]; simpl; discriminate);
    try (exfalso; eapply verify_absent; eassumption);
    try (right; left; do 3 eexists; repeat split; try eassumption;
         by apply Nat.eqb_eq);
    try (right; right; do 2 eexists; repeat split; try eassumption;
         by apply Nat.eqb_neq).
Qed.

(** Without a latest update attached, the handler takes the error path
    of the signature check, with the [TypeError] of the missing update
    when the requested update's own signatures verify. *)
Lemma process_absent_latest_update from requestedUpdate storedState w :
  prior requestedUpdate w = Some storedState ->
  process from (requestedUpdate, None) w =
  fail from requestedUpdate
    (ChannelUpdateError.mk BadSignatures (Some requestedUpdate)
       (Some storedState)
       (ErrorContext.mk None None
          (Some (message
                   (default (typeErrorOfUndefined "commitment")
                      (assertSignatures
                         (ChannelUpdate.commitment requestedUpdate)))))
          None)) w.
Proof.
  unfold classifiedAgainst. intros Hprior.
  inbound_walk; simplify_eq;
    try (exfalso; eapply verify_absent; eassumption);
    match goal with
    | H : verify _ None = Some _ |- _ =>
        unfold verifySignatures in H;
        destruct (assertSignatures _); simplify_eq; reflexivity
    end.
Qed.

(** Every error that the handler publishes carries an update, the
    requested one or the latest one of the counterparty: the matchers
    piped onto the error stream read it without throwing, which is why
    the post of [handleError] is the plain one. *)
Lemma process_posts_errors_with_an_update from requestedUpdate latest w e :
  In (PostedError e) (log (snd (process from (requestedUpdate, latest) w))) ->
  In (PostedError e) (log w)
  \/ exists error update,
       e = Some error /\ ChannelUpdateError.update error = Some update.
Proof.
  inbound_walk;
    try (exfalso; eapply verify_absent; eassumption);
    try (rewrite handleError_run;
         destruct (Nat.eqb _ 1); [destruct (sendFault _ _)|]);
    unfold send, postState, emit; try destruct (sendFault _ _);
    cbn [snd log logged persisted].
  all: try rewrite in_app_iff.
  all: cbn [In]; intros Hin; try (by left).
  all: destruct Hin as [Hin | Hnew]; [by left|].
  all: repeat (destruct Hnew as [Hnew | Hnew]; try discriminate Hnew).
  all: try (injection Hnew as <-; right; eexists _, _; split; reflexivity).
  all: destruct Hnew.
Qed.

(** The matcher of an attempt throws on a posted event exactly when the
    event or its update is absent, whatever the update of the attempt. *)
Lemma throwsOn_spec (e : option ChannelUpdateError) update :
  throwsOn e update = true
  <-> e = None
      \/ exists error, e = Some error /\ ChannelUpdateError.update error = None.
Proof.
  unfold throwsOn, errorMatcher. destruct e as [error|].
  - destruct (ChannelUpdateError.update error) eqn:Hupdate.
    + split; [discriminate|]. intros [?|(? & ? & ?)]; congruence.
    + split; [|done]. intros _. right. by exists error.
  - split; [|done]. intros _. by left.
Qed.

(** An error that carries its update is posted without a throw: the
    unchecked post is then the plain one. *)
Lemma postUnchecked_with_update error update w :
  ChannelUpdateError.update error = Some update ->
  postUnchecked listeners (Some error) w = postError (Some error) w.
Proof.
  intros Hupdate. unfold postUnchecked, bind, postError, emit, ret.
  replace (existsb _ listeners) with false; [reflexivity|].
  symmetry. apply not_true_is_false. intros Hthrows.
  apply existsb_exists in Hthrows as (attempt & _ & Hthrows).
  apply throwsOn_spec in Hthrows as [?|(? & ? & ?)]; congruence.
Qed.

(** The unchecked post, run: the event reaches the stream, and the post
    throws when a piped matcher does. *)
Lemma postUnchecked_run e (w : World) :
  postUnchecked listeners e w
  = (if existsb (throwsOn e) listeners
     then Rejected (ThrowError (readFault e))
     else Resolved tt,
     logged w [PostedError e]).
Proof.
  unfold postUnchecked, bind, postError, emit, throw, ret.
  by destruct (existsb _ _).
Qed.

(** C9 (amended). For every inbound message whose sender differs from
    the local identifier and which is not a channel message, [inbound]
    posts the message's [error] field onto the error stream, whatever the
    field holds and even when it is absent. It then returns, unless the
    matcher of a pending outbound attempt is piped onto the stream and
    the field or the update inside it is absent: the matcher then throws
    in the poster, and the handler rejects with that [TypeError] after
    the post. *)
Theorem C9_other_message_posts_its_error_field (msg : VectorMessage) w :
  VectorMessage.from msg <> publicIdentifier signer ->
  isChannelMessage msg = false ->
  inbound applyUpdate assertSignatures getHash signer saveFault sendFault
    listeners msg w
  = (if existsb (throwsOn (VectorMessage.error msg)) listeners
     then Rejected (ThrowError (readFault (VectorMessage.error msg)))
     else Resolved tt,
     logged w [PostedError (VectorMessage.error msg)])
  /\ (existsb (throwsOn (VectorMessage.error msg)) listeners = true
      <-> listeners <> []
          /\ (VectorMessage.error msg = None
              \/ exists error,
                   VectorMessage.error msg = Some error
                   /\ ChannelUpdateError.update error = None)).
Proof.
  intros Hfrom Hvariant. split.
  - unfold inbound, isChannelMessage in *.
    apply String.eqb_neq in Hfrom. rewrite Hfrom.
    destruct (VectorMessage.data msg); [discriminate|].
    apply postUnchecked_run.
  - rewrite existsb_exists. split.
    + intros (attempt & Hin & Hthrows). split.
      * intros Hnone. rewrite Hnone in Hin. destruct Hin.
      * by apply (throwsOn_spec _ attempt).
    + intros [Hsome Habsent]. destruct listeners as [|attempt rest]; [done|].
      exists attempt. split; [by left|]. by apply throwsOn_spec.
Qed.

(** The error path leaves the store alone and rejects. *)
Lemma handleError_frame from requestedUpdate error (w : World) :
  store (snd (fail from requestedUpdate error w)) = store w
  /\ exists t, fst (fail from requestedUpdate error w) = Rejected t.
Proof. split; [apply handleError_store|apply handleError_rejects]. Qed.

(** An update that does not progress the nonce ends the handler in a
    rejection, with the store as it was, whatever its signatures. *)
Lemma stale_update_untouched from requestedUpdate latest storedState w :
  prior requestedUpdate w = Some storedState ->
  ChannelUpdate.nonce requestedUpdate
  - ChannelState.latestNonce storedState <= 0 ->
  store (snd (process from (requestedUpdate, latest) w)) = store w
  /\ exists t, fst (process from (requestedUpdate, latest) w) = Rejected t.
Proof.
  unfold classifiedAgainst. intros Hprior Hdiff.
  inbound_walk; nonce_facts; simplify_eq;
    try apply handleError_frame; lia.
Qed.

(** C6. For every rejected inbound update (bad signatures, nonce
    difference at most 0 or at least 3, missing resync material, failed
    application of the resync update or of the requested update) the
    handler rejects and performs no store write: the store is exactly
    what it was before the message arrived. *)
Theorem C6_rejected_update_leaves_store_untouched
    from requestedUpdate latest storedState w :
  prior requestedUpdate w = Some storedState ->
  RejectedUpdate applyUpdate assertSignatures requestedUpdate latest
    storedState ->
  store (snd (process from (requestedUpdate, latest) w)) = store w
  /\ exists t, fst (process from (requestedUpdate, latest) w) = Rejected t.
Proof.
  unfold classifiedAgainst. intros Hprior Hrej.
  destruct Hrej as [Hsigs | Hstale | Hgap | Hgap Hnone
                   | resync e Hgap Hsome Hresync | e Hnext Happly
                   | resync resynced e Hgap Hsome Hresync Happly];
    subst; inbound_walk; nonce_facts; simplify_eq;
    try apply handleError_frame; try congruence; try lia;
    try (exfalso; eapply verify_absent; eassumption).
Qed.

(** The error path when the reply it owes, if any, is not refused. *)
Lemma handleError_delivered {A} from requestedUpdate error (w : World) :
  (ChannelUpdate.signatureCount requestedUpdate = 1%nat ->
   sendFault from (ErrorPayload error) = None) ->
  @handleError sendFault A from requestedUpdate error w
  = (Rejected (ThrowUpdateError error),
     logged w (errorReply from requestedUpdate error
               ++ [PostedError (Some error)])).
Proof.
  intros Hsend. rewrite handleError_run. unfold errorReply.
  destruct (Nat.eqb _ 1) eqn:Hcount; [|reflexivity].
  apply Nat.eqb_eq in Hcount. by rewrite (Hsend Hcount).
Qed.

(** C7 (amended). Every invocation of the handler either ends on the
    error path or accepts the update: it has applied the update, written
    the applied state to the store and sent the ack or published the
    state. On the error path the store is not written and the reply to
    the sender is due if and only if the requested update carries exactly
    one signature. When that reply is not refused by the transport, or
    none is due, the handler sends the reply if due, then publishes the
    error on the error stream, then rejects with that very error. When
    the transport refuses the reply, the handler rejects with the
    transport's error after the attempted send and publishes nothing. *)
Theorem C7_error_path_replies_publishes_and_propagates
    from requestedUpdate latest w :
  (exists error,
     process from (requestedUpdate, latest) w
     = fail from requestedUpdate error w
     /\ store (snd (process from (requestedUpdate, latest) w)) = store w
     /\ (In (Sent from (ErrorPayload error))
            (errorReply from requestedUpdate error)
         <-> ChannelUpdate.signatureCount requestedUpdate = 1%nat)
     /\ ((ChannelUpdate.signatureCount requestedUpdate = 1%nat ->
          sendFault from (ErrorPayload error) = None) ->
         process from (requestedUpdate, latest) w
         = (Rejected (ThrowUpdateError error),
            logged w (errorReply from requestedUpdate error
                      ++ [PostedError (Some error)])))
     /\ (forall refusal,
           ChannelUpdate.signatureCount requestedUpdate = 1%nat ->
           sendFault from (ErrorPayload error) = Some refusal ->
           process from (requestedUpdate, latest) w
           = (Rejected (ThrowError refusal),
              logged w (errorReply from requestedUpdate error))))
  \/ (exists previousState response,
        applyUpdate requestedUpdate previousState = inr response
        /\ saveFault response = None
        /\ store (snd (process from (requestedUpdate, latest) w))
           = store (persisted w response)
        /\ exists effect,
             log (snd (process from (requestedUpdate, latest) w))
             = log w ++ [effect]
             /\ (effect = PostedState response
                 \/ exists update,
                      effect
                      = Sent from
                          (ChannelData update
                             (ChannelState.latestUpdate response)))).
Proof.
  destruct (process_paths from requestedUpdate latest w)
    as [(error & _ & Hrun)
       | [(prev & response & sig & Happly & _ & _ & Hsave & Hrun)
         | (prev & response & Happly & _ & Hsave & Hrun)]].
  - left. exists error. rewrite Hrun.
    split; [reflexivity|]. split; [apply handleError_store|].
    split; [|split].
    + unfold errorReply. destruct (Nat.eqb _ 1) eqn:Hcount.
      * apply Nat.eqb_eq in Hcount. split; [done|]. intros _. by left.
      * apply Nat.eqb_neq in Hcount. split; [intros []|done].
    + apply handleError_delivered.
    + intros refusal Hcount Hrefused. rewrite handleError_run.
      unfold errorReply. apply Nat.eqb_eq in Hcount.
      by rewrite Hcount, Hrefused.
  - right. exists prev, response. rewrite Hrun. unfold send.
    repeat split; try done; destruct (sendFault _ _);
      try reflexivity; eexists; (split; [reflexivity|]); right; eauto.
  - right. exists prev, response. rewrite Hrun.
    repeat split; try done. eexists. split; [reflexivity|]. by left.
Qed.

(** C5 (amended). For every inbound channel message whose nonce does not
    exceed the nonce of the state it is classified against, the handler
    leaves the store as it is; when moreover the signatures of both the
    requested and the attached latest update verify, it takes the error
    path with [StaleUpdateNonce], the error carrying the local state and
    with it the local party's latest update, and rejects with that error
    unless the reply it owes is refused by the transport. *)
Theorem C5_stale_update_is_refused_without_mutation
    from requestedUpdate latest storedState w :
  prior requestedUpdate w = Some storedState ->
  ChannelUpdate.nonce requestedUpdate
  - ChannelState.latestNonce storedState <= 0 ->
  let error :=
    ChannelUpdateError.mk StaleUpdateNonce (Some requestedUpdate)
      (Some storedState) (ErrorContext.mk latest None None None) in
  store (snd (process from (requestedUpdate, latest) w)) = store w
  /\ (verify requestedUpdate latest = None ->
      process from (requestedUpdate, latest) w
      = fail from requestedUpdate error w
      /\ ChannelState.latestUpdate <$> ChannelUpdateError.state error
         = Some (ChannelState.latestUpdate storedState)
      /\ ((ChannelUpdate.signatureCount requestedUpdate = 1%nat ->
           sendFault from (ErrorPayload error) = None) ->
          process from (requestedUpdate, latest) w
          = (Rejected (ThrowUpdateError error),
             logged w (errorReply from requestedUpdate error
                       ++ [PostedError (Some error)])))).
Proof.
  intros Hprior Hdiff error. split.
  - by eapply stale_update_untouched.
  - intros Hverify.
    assert (Hrun : process from (requestedUpdate, latest) w
                   = fail from requestedUpdate error w).
    { unfold classifiedAgainst in Hprior. subst error.
      inbound_walk; nonce_facts; simplify_eq; try reflexivity; lia. }
    split; [exact Hrun|]. split; [reflexivity|].
    intros Hsend. rewrite Hrun. by apply handleError_delivered.
Qed.

(** C10 (amended). For every [setup] update arriving for a channel with
    no stored state, the handler classifies against an empty state of
    nonce 0 that it creates. With nonce 0, when the signatures of both
    the requested and the attached latest update verify, it takes the
    error path with [StaleUpdateNonce], rejecting with that error unless
    the reply it owes is refused. Whatever the nonce, the update is
    accepted (the handler returns, or the store is written) only if its
    nonce is at least 1. *)
Theorem C10_setup_update_needs_positive_nonce from requestedUpdate latest w :
  store w !! ChannelUpdate.channelAddress requestedUpdate = None ->
  ChannelUpdate.type requestedUpdate = setup ->
  let empty := emptyChannelState signer requestedUpdate in
  let error :=
    ChannelUpdateError.mk StaleUpdateNonce (Some requestedUpdate)
      (Some empty) (ErrorContext.mk latest None None None) in
  ChannelState.latestNonce empty = 0
  /\ ChannelState.latestUpdate empty = None
  /\ (ChannelUpdate.nonce requestedUpdate = 0 ->
      verify requestedUpdate latest = None ->
      process from (requestedUpdate, latest) w
      = fail from requestedUpdate error w
      /\ ((ChannelUpdate.signatureCount requestedUpdate = 1%nat ->
           sendFault from (ErrorPayload error) = None) ->
          process from (requestedUpdate, latest) w
          = (Rejected (ThrowUpdateError error),
             logged w (errorReply from requestedUpdate error
                       ++ [PostedError (Some error)]))))
  /\ (fst (process from (requestedUpdate, latest) w) = Resolved tt
      \/ store (snd (process from (requestedUpdate, latest) w)) <> store w ->
      1 <= ChannelUpdate.nonce requestedUpdate).
Proof.
  intros Hstore Hsetup empty error. split; [reflexivity|].
  split; [reflexivity|]. split.
  - intros Hnonce Hverify.
    assert (Hrun : process from (requestedUpdate, latest) w
                   = fail from requestedUpdate error w).
    { subst error empty. inbound_walk; nonce_facts; simplify_eq;
        try reflexivity; try (rewrite Hsetup in *; discriminate);
        simpl in *; lia. }
    split; [exact Hrun|]. intros Hsend. rewrite Hrun.
    by apply handleError_delivered.
  - intros Haccepted.
    destruct (Z_le_gt_dec 1 (ChannelUpdate.nonce requestedUpdate))
      as [|Hsmall]; [done|exfalso].
    assert (Hprior : prior requestedUpdate w = Some empty)
      by (unfold classifiedAgainst; by rewrite Hstore, Hsetup).
    destruct (stale_update_untouched from requestedUpdate latest empty w
                Hprior ltac:(simpl; lia)) as [Hsame [t Ht]].
    destruct Haccepted as [Hres | Hchanged]; [congruence|done].
Qed.

(** The handler on a proposal that passes every check: the applied state
    is written to the store as [applyUpdate] returned it, and the reply
    carries the requested update with the signer's signature appended. *)
Lemma process_proposal_accepted
    from requestedUpdate latest storedState response sig w :
  prior requestedUpdate w = Some storedState ->
  verify requestedUpdate latest = None ->
  ChannelUpdate.nonce requestedUpdate
  - ChannelState.latestNonce storedState = 1 ->
  applyUpdate requestedUpdate storedState = inr response ->
  ChannelUpdate.signatureCount requestedUpdate = 1%nat ->
  signMessage signer (getHash (ChannelUpdate.commitment requestedUpdate))
  = inr sig ->
  saveFault response = None ->
  process from (requestedUpdate, latest) w
  = send sendFault from
      (ChannelData
         (ChannelUpdate.withCommitment requestedUpdate
            (MultisigCommitment.addSignature
               (ChannelUpdate.commitment requestedUpdate) sig))
         (ChannelState.latestUpdate response))
      (persisted w response).
Proof.
  unfold classifiedAgainst. intros Hprior Hverify Hdiff Happly Hcount Hsig Hsave.
  apply Nat.eqb_eq in Hcount.
  inbound_walk; nonce_facts; simplify_eq; try congruence; lia.
Qed.

(** No invocation of the handler ends with the reason
    [StaleChannelNonceNoUpdate]: the signature check has already taken
    the error path of every message without a latest update attached. *)
Lemma process_never_StaleChannelNonceNoUpdate from requestedUpdate latest w :
  forall error,
    fst (process from (requestedUpdate, latest) w)
    = Rejected (ThrowUpdateError error) ->
    ChannelUpdateError.message error <> StaleChannelNonceNoUpdate.
Proof.
  intros error.
  destruct (process_paths from requestedUpdate latest w)
    as [(error0 & Hreason & Hrun)
       | [(prev & response & sig & _ & _ & _ & _ & Hrun)
         | (prev & response & _ & _ & _ & Hrun)]]; rewrite Hrun.
  - rewrite handleError_run.
    destruct (Nat.eqb _ 1); [destruct (sendFault _ _)|]; simpl;
      intros H; by simplify_eq.
  - unfold send. by destruct (sendFault _ _).
  - done.
Qed.

(** ** Further properties of the inbound handler *)

(** Identifies the results of a capability called twice on the same
    arguments. *)
Ltac agree :=
  repeat match goal with
  | H1 : ?x = ?a, H2 : ?x = ?b |- _ =>
      first [constr_eq a b; clear H2 | rewrite H1 in H2; simplify_eq]
  end.

(** X1. An update other than [setup] for a channel that the store does
    not know takes the error path with [ChannelNotFound], the error
    carrying no state, before any signature is verified and whatever the
    nonce; the store is left as it is. *)
Theorem unknown_channel_is_refused_before_verification
    from requestedUpdate latest w :
  store w !! ChannelUpdate.channelAddress requestedUpdate = None ->
  ChannelUpdate.type requestedUpdate <> setup ->
  process from (requestedUpdate, latest) w
  = fail from requestedUpdate
      (ChannelUpdateError.mk ChannelNotFound (Some requestedUpdate) None
         ErrorContext.none) w
  /\ store (snd (process from (requestedUpdate, latest) w)) = store w.
Proof.
  intros Hstore Htype.
  assert (Hrun : process from (requestedUpdate, latest) w
                 = fail from requestedUpdate
                     (ChannelUpdateError.mk ChannelNotFound
                        (Some requestedUpdate) None ErrorContext.none) w).
  { apply process_unknown_channel. unfold classifiedAgainst.
    rewrite Hstore. by destruct (ChannelUpdate.type requestedUpdate). }
  split; [exact Hrun|]. rewrite Hrun. apply handleError_store.
Qed.

(** X2. A message whose signature check fails takes the error path with
    [BadSignatures] whatever its nonce: the check comes before the
    classification. The error carries the state classified against, the
    attached latest update and the message of the verification error. *)
Theorem bad_signatures_are_refused_whatever_the_nonce
    from requestedUpdate latest storedState e w :
  prior requestedUpdate w = Some storedState ->
  verify requestedUpdate latest = Some e ->
  processChannelMessage applyUpdate assertSignatures getHash signer
      saveFault sendFault from (requestedUpdate, latest) w
  = fail from requestedUpdate
      (ChannelUpdateError.mk BadSignatures (Some requestedUpdate)
         (Some storedState)
         (ErrorContext.mk latest None (Some (message e)) None)) w.
Proof.
  unfold classifiedAgainst. intros Hprior Hverify.
  inbound_walk; simplify_eq; reflexivity.
Qed.

(** X3. A verified message three or more nonces ahead of the state it is
    classified against takes the error path with [StaleChannelNonce],
    the error carrying that state and the attached latest update. *)
Theorem gap_of_three_or_more_is_refused
    from requestedUpdate latest storedState w :
  prior requestedUpdate w = Some storedState ->
  verify requestedUpdate latest = None ->
  3 <= ChannelUpdate.nonce requestedUpdate
       - ChannelState.latestNonce storedState ->
  processChannelMessage applyUpdate assertSignatures getHash signer
      saveFault sendFault from (requestedUpdate, latest) w
  = fail from requestedUpdate
      (ChannelUpdateError.mk StaleChannelNonce (Some requestedUpdate)
         (Some storedState)
         (ErrorContext.mk latest None None None)) w.
Proof.
  unfold classifiedAgainst. intros Hprior Hverify Hgap.
  inbound_walk; nonce_facts; simplify_eq; try reflexivity; lia.
Qed.

(** X4. The three application failures of a verified message. One nonce
    ahead, a requested update that does not apply is refused with
    [ApplyUpdateFailed] carrying the stored state. Two nonces ahead, a
    latest update that does not apply is refused with [ApplyUpdateFailed]
    naming the latest update, not the requested one; and when the latest
    update applies but the requested one does not, the error carries the
    resynced state, which was never stored. *)
Theorem application_failures_are_refused
    from requestedUpdate latest storedState w :
  prior requestedUpdate w = Some storedState ->
  verify requestedUpdate latest = None ->
  let diff := ChannelUpdate.nonce requestedUpdate
              - ChannelState.latestNonce storedState in
  (diff = 1 -> forall e,
   applyUpdate requestedUpdate storedState = inl e ->
   process from (requestedUpdate, latest) w
   = fail from requestedUpdate
       (ChannelUpdateError.mk ApplyUpdateFailed (Some requestedUpdate)
          (Some storedState)
          (ErrorContext.mk latest None (Some (message e)) None)) w)
  /\ (diff = 2 -> forall update e,
      latest = Some update ->
      applyUpdate update storedState = inl e ->
      process from (requestedUpdate, latest) w
      = fail from requestedUpdate
          (ChannelUpdateError.mk ApplyUpdateFailed (Some update)
             (Some storedState)
             (ErrorContext.mk None (Some requestedUpdate)
                (Some (message e)) (Some (stack e)))) w)
  /\ (diff = 2 -> forall update resynced e,
      latest = Some update ->
      applyUpdate update storedState = inr resynced ->
      applyUpdate requestedUpdate resynced = inl e ->
      process from (requestedUpdate, latest) w
      = fail from requestedUpdate
          (ChannelUpdateError.mk ApplyUpdateFailed (Some requestedUpdate)
             (Some resynced)
             (ErrorContext.mk latest None (Some (message e)) None)) w).
Proof.
  unfold classifiedAgainst. cbv zeta. intros Hprior Hverify.
  repeat split; intros; subst;
    inbound_walk; nonce_facts; simplify_eq; try reflexivity;
    try congruence; lia.
Qed.

(** X5. A verified message two nonces ahead whose two updates apply in
    turn is accepted on top of the resynced state, and only the final
    state is written to the store: an update that does not carry exactly
    one signature is stored and published, a single-signed one is
    countersigned, stored and acknowledged. *)
Theorem resync_then_update_writes_the_final_state_only
    from requestedUpdate update storedState resynced response w :
  prior requestedUpdate w = Some storedState ->
  verify requestedUpdate (Some update) = None ->
  ChannelUpdate.nonce requestedUpdate
  - ChannelState.latestNonce storedState = 2 ->
  applyUpdate update storedState = inr resynced ->
  applyUpdate requestedUpdate resynced = inr response ->
  saveFault response = None ->
  (ChannelUpdate.signatureCount requestedUpdate <> 1%nat ->
   process from (requestedUpdate, Some update) w
   = (Resolved tt, logged (persisted w response) [PostedState response]))
  /\ (forall sig,
      ChannelUpdate.signatureCount requestedUpdate = 1%nat ->
      signMessage signer (getHash (ChannelUpdate.commitment requestedUpdate))
      = inr sig ->
      process from (requestedUpdate, Some update) w
      = send sendFault from
          (ChannelData
             (ChannelUpdate.withCommitment requestedUpdate
                (MultisigCommitment.addSignature
                   (ChannelUpdate.commitment requestedUpdate) sig))
             (ChannelState.latestUpdate response))
          (persisted w response)).
Proof.
  unfold classifiedAgainst.
  intros Hprior Hverify Hdiff Hresync Happly Hsave. split.
  - intros Hcount. apply Nat.eqb_neq in Hcount.
    inbound_walk; nonce_facts; simplify_eq; agree; try reflexivity;
      try congruence; lia.
  - intros sig Hcount Hsig. apply Nat.eqb_eq in Hcount.
    inbound_walk; nonce_facts; simplify_eq; agree; try reflexivity;
      try congruence; lia.
Qed.

(** X6. A verified update one nonce ahead that applies and does not carry
    exactly one signature is taken for an ack, whether it carries two
    signatures, more, or none: the applied state is stored and published
    on the state stream, and no message is sent. *)
Theorem update_not_single_signed_is_stored_and_published
    from requestedUpdate latest storedState response w :
  prior requestedUpdate w = Some storedState ->
  verify requestedUpdate latest = None ->
  ChannelUpdate.nonce requestedUpdate
  - ChannelState.latestNonce storedState = 1 ->
  applyUpdate requestedUpdate storedState = inr response ->
  ChannelUpdate.signatureCount requestedUpdate <> 1%nat ->
  saveFault response = None ->
  process from (requestedUpdate, latest) w
  = (Resolved tt, logged (persisted w response) [PostedState response]).
Proof.
  unfold classifiedAgainst. intros Hprior Hverify Hdiff Happly Hcount Hsave.
  apply Nat.eqb_neq in Hcount.
  inbound_walk; nonce_facts; simplify_eq; agree; try reflexivity;
    try congruence; lia.
Qed.

(** X7. When the signer cannot sign the hash of a single-signed update,
    the handler never writes the store and never returns, whatever the
    rest of the message; when the update had passed every check, the
    failure is reported on the error path as [SaveChannelFailed], with
    the message of the signer's error. *)
Theorem signer_failure_is_reported_as_SaveChannelFailed
    from requestedUpdate latest e w :
  ChannelUpdate.signatureCount requestedUpdate = 1%nat ->
  signMessage signer (getHash (ChannelUpdate.commitment requestedUpdate))
  = inl e ->
  store (snd (process from (requestedUpdate, latest) w)) = store w
  /\ (exists t, fst (process from (requestedUpdate, latest) w) = Rejected t)
  /\ (forall storedState response,
      prior requestedUpdate w = Some storedState ->
      verify requestedUpdate latest = None ->
      ChannelUpdate.nonce requestedUpdate
      - ChannelState.latestNonce storedState = 1 ->
      applyUpdate requestedUpdate storedState = inr response ->
      process from (requestedUpdate, latest) w
      = fail from requestedUpdate
          (ChannelUpdateError.mk SaveChannelFailed (Some requestedUpdate)
             (Some storedState)
             (ErrorContext.mk None None (Some (message e)) None)) w).
Proof.
  intros Hcount Hsig. apply Nat.eqb_eq in Hcount. repeat split.
  - inbound_walk; simplify_eq; try apply handleError_store; congruence.
  - inbound_walk; simplify_eq; try apply handleError_rejects; congruence.
  - unfold classifiedAgainst. intros storedState response Hprior Hverify
      Hdiff Happly.
    inbound_walk; nonce_facts; simplify_eq; agree; try reflexivity;
      try congruence; lia.
Qed.

(** X8. When the store refuses the applied state of a verified update
    one nonce ahead, the handler takes the error path with
    [SaveChannelFailed], the error carrying the state the update was
    applied to and the message of the store's error; the store is left
    as it is and nothing is acknowledged or published. *)
Theorem refused_write_is_reported_as_SaveChannelFailed
    from requestedUpdate latest storedState response e w :
  prior requestedUpdate w = Some storedState ->
  verify requestedUpdate latest = None ->
  ChannelUpdate.nonce requestedUpdate
  - ChannelState.latestNonce storedState = 1 ->
  applyUpdate requestedUpdate storedState = inr response ->
  saveFault response = Some e ->
  (ChannelUpdate.signatureCount requestedUpdate = 1%nat ->
   exists sig,
     signMessage signer (getHash (ChannelUpdate.commitment requestedUpdate))
     = inr sig) ->
  process from (requestedUpdate, latest) w
  = fail from requestedUpdate
      (ChannelUpdateError.mk SaveChannelFailed (Some requestedUpdate)
         (Some storedState)
         (ErrorContext.mk None None (Some (message e)) None)) w
  /\ store (snd (process from (requestedUpdate, latest) w)) = store w.
Proof.
  unfold classifiedAgainst.
  intros Hprior Hverify Hdiff Happly Hsave Hsigner.
  assert (Hrun : process from (requestedUpdate, latest) w
                 = fail from requestedUpdate
                     (ChannelUpdateError.mk SaveChannelFailed
                        (Some requestedUpdate) (Some storedState)
                        (ErrorContext.mk None None (Some (message e)) None))
                     w).
  { inbound_walk; nonce_facts; simplify_eq; agree; try reflexivity;
      try congruence; try lia.
    all: match goal with
         | H : Nat.eqb _ 1 = true |- _ =>
             apply Nat.eqb_eq in H; destruct (Hsigner H); congruence
         end. }
  split; [exact Hrun|]. rewrite Hrun. apply handleError_store.
Qed.

(** X9. What one invocation of the handler adds to the log is one of:
    a single message to the sender; an error sent to the sender and then
    published; an error published; a state published. The handler never
    sends to anyone but the sender, never sends twice, and never
    publishes both a state and an error. *)
Theorem handler_effects_have_four_shapes from requestedUpdate latest w :
  exists effects,
    log (snd (processChannelMessage applyUpdate assertSignatures getHash signer
      saveFault sendFault from (requestedUpdate, latest) w)) = log w ++ effects
    /\ ((exists payload, effects = [Sent from payload])
        \/ (exists error,
              effects = [Sent from (ErrorPayload error);
                         PostedError (Some error)])
        \/ (exists error, effects = [PostedError (Some error)])
        \/ (exists state, effects = [PostedState state])).
Proof.
  destruct (process_paths from requestedUpdate latest w)
    as [(error & _ & Hrun)
       | [(prev & response & sig & _ & _ & _ & _ & Hrun)
         | (prev & response & _ & _ & _ & Hrun)]]; rewrite Hrun.
  - rewrite handleError_run.
    destruct (Nat.eqb _ 1); [destruct (sendFault _ _)|];
      eexists; (split; [reflexivity|]); eauto 6.
  - unfold send. destruct (sendFault _ _);
      eexists; (split; [reflexivity|]); eauto.
  - eexists. split; [reflexivity|]. eauto 6.
Qed.

(** Every invocation of the handler logs at least one effect. *)
Lemma process_leaves_a_trace from requestedUpdate latest w :
  exists effect effects,
    log (snd (process from (requestedUpdate, latest) w))
    = log w ++ effect :: effects.
Proof.
  destruct (process_paths from requestedUpdate latest w)
    as [(error & _ & Hrun)
       | [(prev & response & sig & _ & _ & _ & _ & Hrun)
         | (prev & response & _ & _ & _ & Hrun)]]; rewrite Hrun.
  - rewrite handleError_run.
    destruct (Nat.eqb _ 1); [destruct (sendFault _ _)|];
      eexists _, _; reflexivity.
  - unfold send. destruct (sendFault _ _); eexists _, _; reflexivity.
  - eexists _, _. reflexivity.
Qed.

Local Abbreviation receive :=
  (inbound applyUpdate assertSignatures getHash signer saveFault sendFault
     listeners).

(** X10. A message from the local identifier is ignored whatever it
    holds: the handler returns and the world is as it was. Every other
    message leaves a trace: the log grows by at least one effect. *)
Theorem only_own_messages_leave_no_trace (msg : VectorMessage) w :
  (VectorMessage.from msg = publicIdentifier signer ->
   inbound applyUpdate assertSignatures getHash signer saveFault sendFault
     listeners msg w
   = (Resolved tt, w))
  /\ (VectorMessage.from msg <> publicIdentifier signer ->
      exists effect effects,
        log (snd (inbound applyUpdate assertSignatures getHash signer
                    saveFault sendFault listeners msg w))
        = log w ++ effect :: effects).
Proof.
  unfold inbound. split.
  - intros ->. by rewrite String.eqb_refl.
  - intros Hfrom. apply String.eqb_neq in Hfrom. rewrite Hfrom.
    destruct (VectorMessage.data msg) as [[requestedUpdate latest]|].
    + apply process_leaves_a_trace.
    + rewrite postUnchecked_run. eexists _, []. reflexivity.
Qed.

(** X11. The handler of inbound messages writes the store only by saving
    the state that [applyUpdate] returned for the requested update of a
    channel message from another party, after the store accepted it:
    after any invocation the store is either what it was or what it was
    with that state written. *)
Theorem store_changes_only_by_an_applied_update (msg : VectorMessage) w :
  store (snd (receive msg w)) = store w
  \/ exists requestedUpdate latest previousState response,
       VectorMessage.data msg = Some (requestedUpdate, latest)
       /\ VectorMessage.from msg <> publicIdentifier signer
       /\ applyUpdate requestedUpdate previousState = inr response
       /\ saveFault response = None
       /\ store (snd (receive msg w)) = store (persisted w response).
Proof.
  unfold inbound.
  destruct (String.eqb _ _) eqn:Hfrom; [by left|].
  apply String.eqb_neq in Hfrom.
  destruct (VectorMessage.data msg) as [[requestedUpdate latest]|];
    [|left; by rewrite postUnchecked_run].
  destruct (process_paths (VectorMessage.from msg) requestedUpdate latest w)
    as [(error & _ & Hrun)
       | [(prev & response & sig & Happly & _ & _ & Hsave & Hrun)
         | (prev & response & Happly & _ & Hsave & Hrun)]]; rewrite Hrun.
  - left. apply handleError_store.
  - right. exists requestedUpdate, latest, prev, response.
    repeat split; try done. unfold send. by destruct (sendFault _ _).
  - right. exists requestedUpdate, latest, prev, response. by repeat split.
Qed.

End InboundProperties.

(** ** Properties of the outbound driver *)

(** The error matcher of an attempt compares the nonce only: the channel
    address of the event is compared with itself. *)
Lemma errorMatcher_ignores_channelAddress update error errorUpdate :
  ChannelUpdateError.update error = Some errorUpdate ->
  errorMatcher update (Some error)
  = Some (Z.eqb (ChannelUpdate.nonce errorUpdate) (ChannelUpdate.nonce update)).
Proof.
  intros H. unfold errorMatcher. rewrite H.
  by rewrite String.eqb_refl, andb_true_r.
Qed.

(** The promise of an attempt only ever rejects with a string, the
    message of a transport error. *)
Lemma settle_rejected update occurrences t :
  settle update occurrences = Rejected t ->
  exists e, In (SendFailed e) occurrences /\ t = ThrowString (message e).
Proof.
  induction occurrences as [|o rest IH]; cbn [settle]; [discriminate|].
  destruct o as [e | s | e].
  - assert (Hrest : settle update rest = Rejected t ->
                    exists e0, In (SendFailed e0) (ErrorEvent e :: rest)
                               /\ t = ThrowString (message e0)).
    { intros H; destruct (IH H) as (e0 & ? & ?).
      exists e0. split; [by right|done]. }
    destruct e as [err|]; [|exact Hrest].
    destruct (errorMatcher update (Some err)) as [[]|];
      [discriminate|exact Hrest|exact Hrest].
  - destruct (stateMatcher update s); [discriminate|].
    intros H; destruct (IH H) as (e & ? & ?). exists e. split; [by right|done].
  - intros H. injection H as <-. exists e. split; [by left|done].
Qed.

Lemma generatePromise_run update storedChannel w :
  generatePromise update storedChannel w
  = (settle update (hd [] (script w)), attempted update storedChannel w).
Proof. reflexivity. Qed.

(** One turn of the retry loop. *)
Lemma retryEach_cons slot rest update storedChannel w :
  retryEach (slot :: rest) update storedChannel w
  = match settle update (hd [] (script w)) with
    | Resolved result => (Resolved result, attempted update storedChannel w)
    | Pending => (Pending, attempted update storedChannel w)
    | Rejected _ =>
        retryEach rest update storedChannel
          (logged (attempted update storedChannel w) [Delayed 3000])
    end.
Proof.
  simpl. unfold bind, tryCatch. rewrite generatePromise_run.
  destruct (settle update (hd [] (script w))); reflexivity.
Qed.

Lemma nth_0_hd {A} (l : list A) (d : A) : nth 0 l d = hd d l.
Proof. by destruct l. Qed.

Lemma nth_S_tl {A} (i : nat) (l : list A) (d : A) :
  nth (S i) l d = nth i (tl l) d.
Proof. destruct l; [by destruct i|done]. Qed.

(** The retry loop over any array: the number [j] of attempts it made
    that the transport rejected determines the log and the outcome. *)
Lemma retryEach_spec update storedChannel slots :
  forall w,
  exists j : nat,
    (j <= length slots)%nat
    /\ store (snd (retryEach slots update storedChannel w)) = store w
    /\ log (snd (retryEach slots update storedChannel w))
       = log w ++ failedAttempts update storedChannel j
         ++ (if Nat.eqb j (length slots) then []
             else [attemptMessage update storedChannel])
    /\ (forall i : nat, (i < j)%nat ->
        exists e, In (SendFailed e) (nth i (script w) [])
                  /\ settle update (nth i (script w) [])
                     = Rejected (ThrowString (message e)))
    /\ (j = length slots ->
        fst (retryEach slots update storedChannel w)
        = Rejected (messageFailed update storedChannel))
    /\ ((j < length slots)%nat ->
        fst (retryEach slots update storedChannel w)
        = settle update (nth j (script w) [])
        /\ forall t, settle update (nth j (script w) []) <> Rejected t).
Proof.
  induction slots as [|slot rest IH]; intros w.
  - exists O. simpl. rewrite app_nil_r.
    repeat split; try done; intros; lia.
  - rewrite retryEach_cons.
    destruct (settle update (hd [] (script w))) as [result | t |] eqn:Hsettle.
    + exists O. rewrite nth_0_hd, Hsettle. simpl.
      repeat split; try done; intros; lia.
    + destruct (IH (logged (attempted update storedChannel w) [Delayed 3000]))
        as (j & Hle & Hstore & Hlog & Hrej & Hall & Hone).
      exists (S j). simpl length. repeat split.
      * lia.
      * exact Hstore.
      * rewrite Hlog. simpl. rewrite <- !app_assoc. simpl.
        destruct (Nat.eqb j (length rest)); reflexivity.
      * intros [|i] Hi.
        -- rewrite nth_0_hd.
           destruct (settle_rejected _ _ _ Hsettle) as (e & Hin & ->).
           by exists e.
        -- rewrite nth_S_tl. apply Hrej. lia.
      * intros Hj. apply Hall. lia.
      * rewrite nth_S_tl. apply Hone. lia.
      * rewrite nth_S_tl. apply Hone. lia.
    + exists O. rewrite nth_0_hd, Hsettle. simpl.
      repeat split; try done; intros; lia.
Qed.

Section OutboundProperties.

Variable applyUpdate : ChannelUpdate -> ChannelState -> JsError + ChannelState.
Variable saveFault : ChannelState -> option JsError.

Local Abbreviation drive := (outbound applyUpdate saveFault).

(** A round that ends in a rejection or stays pending ends the call the
    same way, and a round that resolves with a state returns it. *)
Lemma outbound_round_propagates update storedChannel w :
  store w !! ChannelUpdate.channelAddress update = Some storedChannel ->
  match sendWithRetry update storedChannel w with
  | (Resolved (inl newState), w1) => drive update w = (Resolved newState, w1)
  | (Resolved (inr _), _) => True
  | (Rejected t, w1) => drive update w = (Rejected t, w1)
  | (Pending, w1) => drive update w = (Pending, w1)
  end.
Proof.
  intros Hstored. unfold outbound. rewrite bind_getChannelState, Hstored.
  unfold bind.
  by destruct (sendWithRetry update storedChannel w)
    as [[[state|error]|t|] w1].
Qed.

(** The resync of the driver, case by case. A persistence error is
    noticed through its message: [if (error)] lets an empty one pass. *)
Lemma outbound_resync update storedChannel result counterpartyState latest
    w w1 :
  store w !! ChannelUpdate.channelAddress update = Some storedChannel ->
  sendWithRetry update storedChannel w = (Resolved (inr result), w1) ->
  ChannelUpdateError.message result = StaleUpdateNonce ->
  ChannelUpdateError.state result = Some counterpartyState ->
  ChannelState.latestUpdate counterpartyState = Some latest ->
  (ChannelUpdate.nonce latest <> ChannelUpdate.nonce update ->
   drive update w
   = (Rejected
        (ThrowUpdateError
           (ChannelUpdateError.mk StaleChannelNonce (Some update)
              (Some storedChannel)
              (ErrorContext.mk (Some latest) None None None))), w1))
  /\ (ChannelUpdate.nonce latest = ChannelUpdate.nonce update ->
      match applyUpdate latest storedChannel with
      | inl _ =>
          drive update w
          = (Rejected
               (ThrowUpdateError
                  (ChannelUpdateError.mk ApplyUpdateFailed (Some latest)
                     (Some storedChannel) ErrorContext.none)), w1)
      | inr newState =>
          match saveFault newState with
          | Some e =>
              if String.eqb (message e) ""
              then drive update w
                   = propagated update newState
                       (sendWithRetry update storedChannel w1)
              else drive update w
                   = (Rejected
                        (ThrowUpdateError
                           (ChannelUpdateError.mk SaveChannelFailed
                              (Some latest) (Some storedChannel)
                              ErrorContext.none)), w1)
          | None =>
              drive update w
              = propagated update newState
                  (sendWithRetry update storedChannel
                     (persisted w1 newState))
          end
      end).
Proof.
  intros Hstored Hround Hreason Hstate Hlatest.
  assert (Henter : forall k : ChannelUpdateError -> Async ChannelState,
             bind (sendWithRetry update storedChannel)
               (fun r => match r with
                         | inl newState => ret newState
                         | inr e => k e
                         end) w
             = k result w1)
    by (intros k; unfold bind; by rewrite Hround).
  unfold outbound. rewrite !bind_getChannelState, !Hstored, !Henter.
  rewrite !Hreason, !Hstate, !Hlatest. cbn [Reason_eqb negb]. split.
  - intros Hnonce. apply Z.eqb_neq in Hnonce. by rewrite Hnonce.
  - intros Hnonce. apply Z.eqb_eq in Hnonce. rewrite !Hnonce. cbn [negb].
    destruct (applyUpdate latest storedChannel) as [e|newState];
      [reflexivity|].
    rewrite !bind_saveChannelState.
    destruct (saveFault newState) as [e|]; unfold truthy; cbn [option_map].
    + destruct (String.eqb (message e) ""); cbn [negb]; [|reflexivity].
      unfold bind, propagated.
      by destruct (sendWithRetry update storedChannel w1)
        as [[[state|error]|t|] w2].
    + unfold bind, propagated.
      by destruct (sendWithRetry update storedChannel (persisted w1 newState))
        as [[[state|error]|t|] w2].
Qed.

(** C8. A round of the outbound driver makes at most 5 round-trip
    attempts. An attempt is followed by another only when the transport
    rejected its send, and then after a delay of exactly 3000; an attempt
    that an event resolved, with a state or with a protocol error, ends
    the round with that result and is not retried. When all 5 attempts
    are rejected the call fails with reason [MessageFailed]. *)
Theorem C8_round_retries_transport_rejections_five_times
    update storedChannel w :
  store w !! ChannelUpdate.channelAddress update = Some storedChannel ->
  exists j : nat,
    (j <= 5)%nat
    /\ log (snd (sendWithRetry update storedChannel w))
       = log w ++ failedAttempts update storedChannel j
         ++ (if Nat.eqb j 5 then [] else [attemptMessage update storedChannel])
    /\ (forall i : nat, (i < j)%nat ->
        exists e, In (SendFailed e) (nth i (script w) [])
                  /\ settle update (nth i (script w) [])
                     = Rejected (ThrowString (message e)))
    /\ (j = 5%nat ->
        drive update w
        = (Rejected (messageFailed update storedChannel),
           snd (sendWithRetry update storedChannel w)))
    /\ ((j < 5)%nat ->
        fst (sendWithRetry update storedChannel w)
        = settle update (nth j (script w) [])
        /\ forall t, settle update (nth j (script w) []) <> Rejected t).
Proof.
  intros Hstored. unfold sendWithRetry.
  destruct (retryEach_spec update storedChannel (repeat 0 5) w)
    as (j & Hle & _ & Hlog & Hrej & Hall & Hone).
  exists j. simpl length in *. repeat split; try done; try apply Hone; try done.
  intros Hj. specialize (Hall Hj).
  pose proof (outbound_round_propagates update storedChannel w Hstored) as H.
  unfold sendWithRetry in H.
  destruct (retryEach (repeat 0 5) update storedChannel w)
    as [[[state|error]|t|] w1]; simpl in Hall; try discriminate.
  by injection Hall as ->.
Qed.

(** ** Further properties of the outbound driver *)

(** What a promise resolves with has passed the matcher of its stream. *)
Lemma settle_resolved_state update occurrences s :
  settle update occurrences = Resolved (inl s) ->
  stateMatcher update s = true.
Proof.
  induction occurrences as [|o rest IH]; cbn [settle]; [discriminate|].
  destruct o as [e | s' | e]; [| |discriminate].
  - destruct e as [err|]; [|exact IH].
    destruct (errorMatcher update (Some err)) as [[]|];
      [discriminate|exact IH|exact IH].
  - destruct (stateMatcher update s') eqn:Hs'; [|exact IH].
    intros H. by simplify_eq.
Qed.

Lemma settle_resolved_error update occurrences e :
  settle update occurrences = Resolved (inr e) ->
  errorMatcher update (Some e) = Some true.
Proof.
  induction occurrences as [|o rest IH]; cbn [settle]; [discriminate|].
  destruct o as [e' | s' | e']; [| |discriminate].
  - destruct e' as [err|]; [|exact IH].
    destruct (errorMatcher update (Some err)) as [[]|] eqn:He;
      [|exact IH|exact IH].
    intros H. by simplify_eq.
  - destruct (stateMatcher update s'); [discriminate|exact IH].
Qed.

(** What a round resolves with is what one of its attempts resolved
    with. *)
Lemma round_resolved update storedChannel w result :
  fst (sendWithRetry update storedChannel w) = Resolved result ->
  exists j : nat, settle update (nth j (script w) []) = Resolved result.
Proof.
  unfold sendWithRetry. intros Hres.
  destruct (retryEach_spec update storedChannel (repeat 0 5) w)
    as (j & Hle & _ & _ & _ & Hall & Hone).
  simpl length in *. destruct (decide (j = 5%nat)) as [Hj|Hj].
  - rewrite (Hall Hj) in Hres. discriminate.
  - destruct (Hone ltac:(lia)) as [Hfst _]. exists j. congruence.
Qed.

(** A round only appends to the log, starting with the message of its
    first attempt, and leaves the store alone. *)
Lemma round_frame update storedChannel w :
  store (snd (sendWithRetry update storedChannel w)) = store w
  /\ exists effects,
       log (snd (sendWithRetry update storedChannel w))
       = log w ++ attemptMessage update storedChannel :: effects.
Proof.
  unfold sendWithRetry.
  destruct (retryEach_spec update storedChannel (repeat 0 5) w)
    as (j & Hle & Hstore & Hlog & _).
  split; [exact Hstore|]. rewrite Hlog. destruct j as [|j].
  - eexists. reflexivity.
  - eexists. reflexivity.
Qed.

(** A first attempt that the transport does not reject decides its
    round. *)
Lemma round_first_attempt update storedChannel w :
  (forall t, settle update (hd [] (script w)) <> Rejected t) ->
  sendWithRetry update storedChannel w
  = (settle update (hd [] (script w)), attempted update storedChannel w).
Proof.
  intros Hsettle. unfold sendWithRetry. simpl repeat.
  rewrite retryEach_cons.
  destruct (settle update (hd [] (script w))) as [r|t|]; try reflexivity.
  by destruct (Hsettle t).
Qed.

(** The ways a call for a known channel ends: after its first round
    alone, with the world that round left; or, resynced on the latest
    update of a [StaleUpdateNonce] error, as its second round ends, that
    round starting from the world of the first with the resynced state
    written (or not written, when the store refused without a
    message). *)
Lemma outbound_paths update storedChannel w :
  store w !! ChannelUpdate.channelAddress update = Some storedChannel ->
  (snd (drive update w) = snd (sendWithRetry update storedChannel w)
   /\ forall s, fst (drive update w) = Resolved s ->
                fst (sendWithRetry update storedChannel w) = Resolved (inl s))
  \/ exists error counterpartyState latest newState w2,
       fst (sendWithRetry update storedChannel w) = Resolved (inr error)
       /\ ChannelUpdateError.message error = StaleUpdateNonce
       /\ ChannelUpdateError.state error = Some counterpartyState
       /\ ChannelState.latestUpdate counterpartyState = Some latest
       /\ ChannelUpdate.nonce latest = ChannelUpdate.nonce update
       /\ applyUpdate latest storedChannel = inr newState
       /\ ((saveFault newState = None
            /\ w2 = persisted (snd (sendWithRetry update storedChannel w))
                      newState)
           \/ (saveFault newState <> None
               /\ w2 = snd (sendWithRetry update storedChannel w)))
       /\ drive update w
          = propagated update newState (sendWithRetry update storedChannel w2).
Proof.
  intros Hstored. remember (drive update w) as run eqn:Hrun.
  unfold outbound in Hrun. rewrite bind_getChannelState, Hstored in Hrun.
  unfold bind at 1 in Hrun.
  destruct (sendWithRetry update storedChannel w)
    as [[[state|error]|t|] w1] eqn:Hround; cbn [fst snd];
    try (left; subst run; split; [reflexivity|intros s Hs; cbn in *; by simplify_eq]).
  destruct (Reason_eqb (ChannelUpdateError.message error) StaleUpdateNonce)
    eqn:Hreason; cbn [negb] in Hrun;
    [|left; subst run; split; [reflexivity|intros s Hs; cbn in *; by simplify_eq]].
  assert (Hstale : ChannelUpdateError.message error = StaleUpdateNonce)
    by (by destruct (ChannelUpdateError.message error)).
  destruct (ChannelUpdateError.state error) as [counterpartyState|] eqn:Hstate;
    [|left; subst run; split; [reflexivity|intros s Hs; cbn in *; by simplify_eq]].
  destruct (ChannelState.latestUpdate counterpartyState) as [latest|]
    eqn:Hlatest;
    [|left; subst run; split; [reflexivity|intros s Hs; cbn in *; by simplify_eq]].
  destruct (Z.eqb (ChannelUpdate.nonce latest) (ChannelUpdate.nonce update))
    eqn:Hnonce; cbn [negb] in Hrun;
    [|left; subst run; split; [reflexivity|intros s Hs; cbn in *; by simplify_eq]].
  apply Z.eqb_eq in Hnonce.
  destruct (applyUpdate latest storedChannel) as [e|newState] eqn:Happly;
    [left; subst run; split; [reflexivity|intros s Hs; cbn in *; by simplify_eq]|].
  rewrite bind_saveChannelState in Hrun.
  destruct (saveFault newState) as [e|] eqn:Hsave; cbn [option_map] in Hrun.
  - destruct (truthy (Some (message e)));
      [left; subst run; split; [reflexivity|intros s Hs; cbn in *; by simplify_eq]|].
    right. exists error, counterpartyState, latest, newState, w1.
    repeat split; try done; [right; split; [congruence|done]|].
    subst run. unfold bind, propagated.
    by destruct (sendWithRetry update storedChannel w1)
      as [[[state|error']|t|] w2].
  - right. exists error, counterpartyState, latest, newState,
      (persisted w1 newState).
    repeat split; try done; [by left|].
    subst run. cbn [truthy]. unfold bind, propagated.
    by destruct (sendWithRetry update storedChannel (persisted w1 newState))
      as [[[state|error']|t|] w2].
Qed.

(** X12. For a channel that the store does not know the driver fails
    with [ChannelNotFound] and does nothing: no message is sent. For a
    known channel the first effect of the call is the message of its
    first attempt, which carries the update and the latest update of the
    stored channel. *)
Theorem driver_sends_unless_the_channel_is_unknown update w :
  (store w !! ChannelUpdate.channelAddress update = None ->
   drive update w
   = (Rejected
        (ThrowUpdateError
           (ChannelUpdateError.mk ChannelNotFound (Some update) None
              ErrorContext.none)), w))
  /\ (forall storedChannel,
      store w !! ChannelUpdate.channelAddress update = Some storedChannel ->
      exists effects,
        log (snd (drive update w))
        = log w ++ attemptMessage update storedChannel :: effects).
Proof.
  split.
  - intros Hstored. unfold outbound.
    by rewrite bind_getChannelState, Hstored.
  - intros storedChannel Hstored.
    destruct (round_frame update storedChannel w) as [_ [effects Hlog]].
    destruct (outbound_paths update storedChannel w Hstored)
      as [[Hworld _]
         | (error & cs & latest & newState & w2 & _ & _ & _ & _ & _ & _
            & Hw2 & Hrun)].
    + exists effects. by rewrite Hworld.
    + destruct (round_frame update storedChannel w2) as [_ [effects2 Hlog2]].
      assert (Hlogw2 : log w2
                       = log (snd (sendWithRetry update storedChannel w)))
        by (by destruct Hw2 as [[_ ->] | [_ ->]]).
      rewrite Hrun.
      assert (Hprop : forall round,
                 snd (propagated update newState round) = snd round)
        by (by intros [[[?|?]|?|] ?]).
      rewrite Hprop, Hlog2, Hlogw2, Hlog.
      eexists. rewrite <- app_assoc. reflexivity.
Qed.

(** X13. Whatever a round resolves with has passed the matcher of its
    stream: a state is of the update's channel and has the update's
    nonce as its latest nonce; an error is about an update of the same
    nonce. *)
Theorem round_results_match_the_update update storedChannel w :
  (forall s,
   fst (sendWithRetry update storedChannel w) = Resolved (inl s) ->
   ChannelState.channelAddress s = ChannelUpdate.channelAddress update
   /\ ChannelState.latestNonce s = ChannelUpdate.nonce update)
  /\ (forall e,
      fst (sendWithRetry update storedChannel w) = Resolved (inr e) ->
      exists errorUpdate,
        ChannelUpdateError.update e = Some errorUpdate
        /\ ChannelUpdate.nonce errorUpdate = ChannelUpdate.nonce update).
Proof.
  split.
  - intros s Hres. destruct (round_resolved _ _ _ _ Hres) as [j Hj].
    apply settle_resolved_state in Hj. unfold stateMatcher in Hj.
    apply andb_true_iff in Hj as [Ha Hn].
    split; [by apply String.eqb_eq|by apply Z.eqb_eq].
  - intros e Hres. destruct (round_resolved _ _ _ _ Hres) as [j Hj].
    apply settle_resolved_error in Hj. unfold errorMatcher in Hj.
    destruct (ChannelUpdateError.update e) as [errorUpdate|]; [|discriminate].
    exists errorUpdate. split; [done|].
    injection Hj as Hj. apply andb_true_iff in Hj as [Hn _].
    by apply Z.eqb_eq.
Qed.

(** X14. A state that the driver returns is of the update's channel and
    has the update's nonce as its latest nonce, whether it comes from
    the first round or from the round after a resync. *)
Theorem driver_returns_a_state_of_the_update update w s w' :
  outbound applyUpdate saveFault update w = (Resolved s, w') ->
  ChannelState.channelAddress s = ChannelUpdate.channelAddress update
  /\ ChannelState.latestNonce s = ChannelUpdate.nonce update.
Proof.
  intros Hrun.
  assert (Hmatch : forall storedChannel w0,
             fst (sendWithRetry update storedChannel w0) = Resolved (inl s) ->
             ChannelState.channelAddress s
             = ChannelUpdate.channelAddress update
             /\ ChannelState.latestNonce s = ChannelUpdate.nonce update).
  { intros storedChannel w0 Hres.
    destruct (round_resolved _ _ _ _ Hres) as [j Hj].
    apply settle_resolved_state in Hj. unfold stateMatcher in Hj.
    apply andb_true_iff in Hj as [Ha Hn].
    split; [by apply String.eqb_eq|by apply Z.eqb_eq]. }
  destruct (store w !! ChannelUpdate.channelAddress update)
    as [storedChannel|] eqn:Hstored.
  - destruct (outbound_paths update storedChannel w Hstored)
      as [[_ Hfirst]
         | (error & cs & latest & newState & w2 & _ & _ & _ & _ & _ & _
            & _ & Hsecond)].
    + apply (Hmatch storedChannel w). apply Hfirst. by rewrite Hrun.
    + apply (Hmatch storedChannel w2). rewrite Hrun in Hsecond.
      unfold propagated in Hsecond.
      destruct (sendWithRetry update storedChannel w2)
        as [[[state|error']|t|] w3]; by simplify_eq.
  - unfold outbound in Hrun.
    rewrite bind_getChannelState, Hstored in Hrun. discriminate.
Qed.

(** X15. The driver writes the store at most once, and only to resync:
    after any call the store is what it was, or what it was with the
    state written that [applyUpdate] returned for the latest update
    carried by a [StaleUpdateNonce] error of the update's nonce. *)
Theorem driver_writes_only_the_resynced_state update w :
  store (snd (drive update w)) = store w
  \/ exists storedChannel error counterpartyState latest newState,
       store w !! ChannelUpdate.channelAddress update = Some storedChannel
       /\ ChannelUpdateError.message error = StaleUpdateNonce
       /\ ChannelUpdateError.state error = Some counterpartyState
       /\ ChannelState.latestUpdate counterpartyState = Some latest
       /\ ChannelUpdate.nonce latest = ChannelUpdate.nonce update
       /\ applyUpdate latest storedChannel = inr newState
       /\ saveFault newState = None
       /\ store (snd (drive update w)) = store (persisted w newState).
Proof.
  destruct (store w !! ChannelUpdate.channelAddress update)
    as [storedChannel|] eqn:Hstored.
  - destruct (round_frame update storedChannel w) as [Hstore1 _].
    destruct (outbound_paths update storedChannel w Hstored)
      as [[Hworld _]
         | (error & cs & latest & newState & w2 & _ & Hreason & Hstate
            & Hlatest & Hnonce & Happly & Hw2 & Hrun)].
    + left. by rewrite Hworld.
    + destruct (round_frame update storedChannel w2) as [Hstore2 _].
      assert (Hprop : forall round,
                 snd (propagated update newState round) = snd round)
        by (by intros [[[?|?]|?|] ?]).
      rewrite Hrun, Hprop, Hstore2.
      destruct Hw2 as [[Hsave ->] | [_ ->]]; [|by left].
      right. exists storedChannel, error, cs, latest, newState.
      repeat split; try done. simpl. by rewrite Hstore1.
  - left. unfold outbound. by rewrite bind_getChannelState, Hstored.
Qed.

(** X16. Every message of a call is the same: the log of a call for a
    known channel is the log of one round or of two, and both rounds
    send the update with the latest update of the channel as it was
    stored when the call began, also after the resync has written a
    newer state. *)
Theorem driver_log_is_one_or_two_rounds update storedChannel w :
  store w !! ChannelUpdate.channelAddress update = Some storedChannel ->
  exists j1 : nat,
    (j1 <= 5)%nat
    /\ (log (snd (drive update w))
        = log w ++ roundLog update storedChannel j1
        \/ exists j2 : nat,
             (j2 <= 5)%nat
             /\ log (snd (drive update w))
                = log w ++ roundLog update storedChannel j1
                  ++ roundLog update storedChannel j2).
Proof.
  intros Hstored.
  assert (Hround : forall w0, exists j : nat,
             (j <= 5)%nat
             /\ log (snd (sendWithRetry update storedChannel w0))
                = log w0 ++ roundLog update storedChannel j).
  { intros w0. unfold sendWithRetry.
    destruct (retryEach_spec update storedChannel (repeat 0 5) w0)
      as (j & Hle & _ & Hlog & _). by exists j. }
  destruct (Hround w) as (j1 & Hle1 & Hlog1). exists j1. split; [done|].
  destruct (outbound_paths update storedChannel w Hstored)
    as [[Hworld _]
       | (error & cs & latest & newState & w2 & _ & _ & _ & _ & _ & _
          & Hw2 & Hrun)].
  - left. by rewrite Hworld.
  - right. destruct (Hround w2) as (j2 & Hle2 & Hlog2). exists j2.
    split; [done|].
    assert (Hprop : forall round,
               snd (propagated update newState round) = snd round)
      by (by intros [[[?|?]|?|] ?]).
    assert (Hlogw2 : log w2
                     = log (snd (sendWithRetry update storedChannel w)))
      by (by destruct Hw2 as [[_ ->] | [_ ->]]).
    by rewrite Hrun, Hprop, Hlog2, Hlogw2, Hlog1, <- app_assoc.
Qed.

(** X17. The attempts of the driver have no deadline of their own: when
    the transport accepts the message of the first attempt and no
    matching event arrives, the call never settles, after one message
    and no retry. *)
Theorem driver_waits_without_deadline update storedChannel w :
  store w !! ChannelUpdate.channelAddress update = Some storedChannel ->
  settle update (hd [] (script w)) = Pending ->
  drive update w = (Pending, attempted update storedChannel w).
Proof.
  intros Hstored Hpending.
  pose proof (outbound_round_propagates update storedChannel w Hstored)
    as Hrun.
  rewrite round_first_attempt in Hrun by (intros t; by rewrite Hpending).
  by rewrite Hpending in Hrun.
Qed.

(** X18. When the first attempt resolves with an error whose reason is
    not [StaleUpdateNonce], the call fails at once with an error of the
    same reason that carries the caller's update and the locally stored
    channel; the state and the context of the received error are
    dropped, the store is not written and nothing more is sent. *)
Theorem driver_rethrows_other_reasons update storedChannel error w :
  store w !! ChannelUpdate.channelAddress update = Some storedChannel ->
  settle update (hd [] (script w)) = Resolved (inr error) ->
  ChannelUpdateError.message error <> StaleUpdateNonce ->
  drive update w
  = (Rejected
       (ThrowUpdateError
          (ChannelUpdateError.mk (ChannelUpdateError.message error)
             (Some update) (Some storedChannel) ErrorContext.none)),
     attempted update storedChannel w).
Proof.
  intros Hstored Hsettle Hreason. unfold outbound.
  rewrite bind_getChannelState, Hstored. unfold bind at 1.
  rewrite round_first_attempt by (intros t; by rewrite Hsettle).
  rewrite Hsettle.
  by destruct (ChannelUpdateError.message error).
Qed.

(** X19. When the first attempt resolves with a [StaleUpdateNonce] error
    that carries no state, the call is rejected with the [TypeError] of
    reading the latest update of [undefined], not with an error of the
    protocol; when the error carries a state without a latest update,
    the call fails with [StaleChannelNonceNoUpdate]. Neither writes the
    store or sends again. *)
Theorem driver_needs_the_state_of_a_stale_error
    update storedChannel error w :
  store w !! ChannelUpdate.channelAddress update = Some storedChannel ->
  settle update (hd [] (script w)) = Resolved (inr error) ->
  ChannelUpdateError.message error = StaleUpdateNonce ->
  (ChannelUpdateError.state error = None ->
   drive update w
   = (Rejected (ThrowError (typeErrorOfUndefined "latestUpdate")),
      attempted update storedChannel w))
  /\ (forall counterpartyState,
      ChannelUpdateError.state error = Some counterpartyState ->
      ChannelState.latestUpdate counterpartyState = None ->
      drive update w
      = (Rejected
           (ThrowUpdateError
              (ChannelUpdateError.mk StaleChannelNonceNoUpdate (Some update)
                 (Some storedChannel) ErrorContext.none)),
         attempted update storedChannel w)).
Proof.
  intros Hstored Hsettle Hreason.
  assert (Hrun : forall k : ChannelUpdateError -> Async ChannelState,
             bind (sendWithRetry update storedChannel)
               (fun r => match r with
                         | inl newState => ret newState
                         | inr e => k e
                         end) w
             = k error (attempted update storedChannel w)).
  { intros k. unfold bind.
    rewrite round_first_attempt by (intros t; by rewrite Hsettle).
    by rewrite Hsettle. }
  unfold outbound. rewrite !bind_getChannelState, !Hstored, !Hrun, !Hreason.
  cbn [Reason_eqb negb]. split.
  - by intros ->.
  - intros counterpartyState -> Hlatest. by rewrite Hlatest.
Qed.

(** X20. The promise of an attempt settles once: what happens after the
    occurrence that settled it changes nothing, be it a matching event
    after the transport refused the message or a refusal after a
    matching event; what happens before a settling occurrence and does
    not settle is skipped. *)
Theorem attempt_settles_once update before after :
  settle update (before ++ after)
  = match settle update before with
    | Pending => settle update after
    | settled => settled
    end.
Proof.
  induction before as [|o rest IH]; cbn [settle app].
  - by destruct (settle update after).
  - destruct o as [e | s | e]; [| |reflexivity].
    + destruct e as [err|]; [|exact IH].
      by destruct (errorMatcher update (Some err)) as [[]|].
    + by destruct (stateMatcher update s).
Qed.

End OutboundProperties.

(** ** The protocol on concrete peers *)

Section Runs.

Import Scenario.

Local Abbreviation bobHandles :=
  (processChannelMessage Scenario.applyUpdate Scenario.assertSignatures
     Scenario.getHash bob storeOk).
Local Abbreviation aliceDrives := (outbound Scenario.applyUpdate).

(** C1. The error subscription of an attempt is meant to resolve it only
    for an error of this update's nonce and channel address. The matcher
    compares the event's channel address with itself: an error about
    nonce 6 of channel 0xD resolves the attempt made for nonce 6 of
    channel 0xC, and the outbound call for channel 0xC fails with the
    reason of that error. *)
Theorem C1_error_of_another_channel_resolves_the_attempt :
  let update := updateAt 6 ["alice"] in
  let w := aliceAt 5 [[ErrorEvent (Some foreignError)]] in
  ChannelUpdate.channelAddress <$> ChannelUpdateError.update foreignError
  = Some "0xD"
  /\ ChannelUpdate.channelAddress update = "0xC"
  /\ fst (generatePromise update (stateAt 5) w) = Resolved (inr foreignError)
  /\ fst (aliceDrives storeOk update w)
     = Rejected
         (ThrowUpdateError
            (ChannelUpdateError.mk BadSignatures (Some update)
               (Some (stateAt 5)) ErrorContext.none)).
Proof. vm_compute. repeat split. Qed.

(** C2. An inbound message two nonces ahead of the store and without a
    latest update attached is meant to fail with
    [StaleChannelNonceNoUpdate]. The signature check, which comes first,
    reads the commitment of the missing update: the handler fails with
    [BadSignatures], carrying the message of the [TypeError]. *)
Theorem C2_absent_latest_update_fails_with_BadSignatures :
  let requestedUpdate := updateAt 7 ["alice"] in
  let r := bobHandles transportOk "alice" (requestedUpdate, None) (worldAt 5) in
  ChannelUpdate.nonce requestedUpdate - ChannelState.latestNonce (stateAt 5)
  = 2
  /\ Scenario.assertSignatures (ChannelUpdate.commitment requestedUpdate)
     = None
  /\ exists error,
       fst r = Rejected (ThrowUpdateError error)
       /\ ChannelUpdateError.message error = BadSignatures
       /\ ErrorContext.error (ChannelUpdateError.context error)
          = Some (message (typeErrorOfUndefined "commitment")).
Proof. vm_compute. repeat split. eexists. repeat split. Qed.

(** C4. After a first round that resolves with [StaleUpdateNonce] the
    driver applies the counterparty's latest update and has to persist
    the resynced state, failing with [SaveChannelFailed] when the store
    refuses. The refusal is noticed by [if (error)] on the message of the
    caught error: here the store refuses with an error of empty message,
    the driver goes on to its second round with the store still at nonce
    5, and the call fails with the reason of that round. *)
Theorem C4_persistence_error_without_message_is_not_reported :
  let update := updateAt 6 ["alice"] in
  let w := aliceAt 5 [[ErrorEvent (Some (staleAt 6))];
                      [ErrorEvent (Some (staleAt 6))]] in
  let r := aliceDrives storeSilentlyDown update w in
  Scenario.applyUpdate (updateAt 6 ["alice"; "bob"]) (stateAt 5)
  = inr (stateAt 6)
  /\ storeSilentlyDown (stateAt 6)
     = Some {| message := ""; stack := "saveChannelState" |}
  /\ fst r
     = Rejected
         (ThrowUpdateError
            (ChannelUpdateError.mk StaleUpdateNonce (Some update)
               (Some (stateAt 6)) ErrorContext.none))
  /\ store (snd r) !! "0xC" = Some (stateAt 5)
  /\ log (snd r)
     = [attemptMessage update (stateAt 5); attemptMessage update (stateAt 5)].
Proof. vm_compute. repeat split. Qed.

(** Counterexample to C5 as stated: a replay of the update of nonce 5
    against a store at nonce 5, with a forged signature, fails with
    [BadSignatures], not with [StaleUpdateNonce]. *)
Lemma C5_forged_stale_update_fails_with_BadSignatures :
  let requestedUpdate := updateAt 5 ["alice"; "forged"] in
  let r := bobHandles transportOk "alice"
             (requestedUpdate, Some (updateAt 4 ["alice"; "bob"]))
             (worldAt 5) in
  ChannelUpdate.nonce requestedUpdate - ChannelState.latestNonce (stateAt 5)
  <= 0
  /\ exists error,
       fst r = Rejected (ThrowUpdateError error)
       /\ ChannelUpdateError.message error = BadSignatures
       /\ ChannelUpdateError.message error <> StaleUpdateNonce.
Proof.
  split; [by vm_compute|]. vm_compute. eexists. repeat split. discriminate.
Qed.

(** Counterexample to C7 as stated: the transport refuses the reply that
    the error path owes for a single-signed update; the error is not
    published on the error stream and what propagates is the transport
    error. *)
Lemma C7_refused_reply_ends_the_error_path_unpublished :
  let requestedUpdate := updateAt 5 ["alice"] in
  let r := bobHandles transportDown "alice"
             (requestedUpdate, Some (updateAt 4 ["alice"; "bob"]))
             (worldAt 5) in
  ChannelUpdate.signatureCount requestedUpdate = 1%nat
  /\ fst r = Rejected (ThrowError {| message := "peer unreachable";
                                     stack := "send" |})
  /\ (forall e, ~ In (PostedError e) (log (snd r)))
  /\ exists error,
       ChannelUpdateError.message error = StaleUpdateNonce
       /\ log (snd r) = [Sent "alice" (ErrorPayload error)].
Proof.
  split; [reflexivity|]. split; [by vm_compute|]. split.
  - vm_compute. intros e [H|[]]. discriminate H.
  - exists (ChannelUpdateError.mk StaleUpdateNonce (Some (updateAt 5 ["alice"]))
              (Some (stateAt 5))
              (ErrorContext.mk (Some (updateAt 4 ["alice"; "bob"])) None None
                 None)).
    split; [reflexivity|]. by vm_compute.
Qed.

(** Counterexample to C9 as stated: a message from alice that is neither
    a channel message nor an error message arrives while bob's attempt for
    his proposal of nonce 6 is pending. The absent [error] field is posted
    and the matcher of the attempt throws on it in the poster: the handler
    does not return, it rejects with the [TypeError]. *)
Lemma C9_absent_error_field_throws_in_the_poster :
  let msg := {| VectorMessage.from := "alice";
                VectorMessage.data := None;
                VectorMessage.error := None |} in
  VectorMessage.from msg <> publicIdentifier bob
  /\ isChannelMessage msg = false
  /\ errorMatcher (updateAt 6 ["bob"]) (VectorMessage.error msg) = None
  /\ inbound Scenario.applyUpdate Scenario.assertSignatures Scenario.getHash
       bob storeOk transportOk [updateAt 6 ["bob"]] msg emptyWorld
     = (Rejected (ThrowError (typeErrorOfUndefined "update")),
        logged emptyWorld [PostedError None]).
Proof.
  split; [simpl; discriminate|]. split; [reflexivity|].
  split; [reflexivity|]. by vm_compute.
Qed.

(** Counterexample to C10 as stated: a [setup] update of nonce 0 for an
    unknown channel, with a forged signature, fails with [BadSignatures],
    not with [StaleUpdateNonce]. *)
Lemma C10_forged_setup_update_fails_with_BadSignatures :
  let requestedUpdate := setupAt 0 ["forged"] in
  let r := bobHandles transportOk "alice"
             (requestedUpdate, Some (setupAt 0 ["alice"; "bob"])) emptyWorld in
  store emptyWorld !! ChannelUpdate.channelAddress requestedUpdate = None
  /\ ChannelUpdate.type requestedUpdate = setup
  /\ ChannelUpdate.nonce requestedUpdate = 0
  /\ exists error,
       fst r = Rejected (ThrowUpdateError error)
       /\ ChannelUpdateError.message error = BadSignatures
       /\ ChannelUpdateError.message error <> StaleUpdateNonce.
Proof.
  vm_compute. repeat split. eexists. repeat split. discriminate.
Qed.

(** Scenario B: the dual-signed update of nonce 5 replayed against a
    store at nonce 5. *)
Lemma C5_replayed_update_witness :
  let requestedUpdate := updateAt 5 ["alice"; "bob"] in
  let latest := Some (updateAt 4 ["alice"; "bob"]) in
  let error :=
    ChannelUpdateError.mk StaleUpdateNonce (Some requestedUpdate)
      (Some (stateAt 5)) (ErrorContext.mk latest None None None) in
  let r := bobHandles transportOk "alice" (requestedUpdate, latest)
             (worldAt 5) in
  store (snd r) = store (worldAt 5)
  /\ r = (Rejected (ThrowUpdateError error),
          logged (worldAt 5) [PostedError (Some error)]).
Proof.
  intros requestedUpdate latest error r.
  destruct (C5_stale_update_is_refused_without_mutation
              Scenario.applyUpdate Scenario.assertSignatures Scenario.getHash
              bob storeOk transportOk "alice" requestedUpdate latest
              (stateAt 5) (worldAt 5)) as [Hstore Hrun].
  - vm_compute. reflexivity.
  - simpl. lia.
  - split; [exact Hstore|].
    destruct Hrun as (_ & _ & Hend); [vm_compute; reflexivity|].
    apply Hend. intros _. reflexivity.
Defined.

(** Scenario C: an update of nonce 8 against a store at nonce 5. *)
Lemma C6_gap_of_three_witness :
  let r := bobHandles transportOk "alice"
             (updateAt 8 ["alice"], Some (updateAt 7 ["alice"; "bob"]))
             (worldAt 5) in
  store (snd r) = store (worldAt 5) /\ exists t, fst r = Rejected t.
Proof.
  intros r. subst r.
  apply (C6_rejected_update_leaves_store_untouched
           Scenario.applyUpdate Scenario.assertSignatures Scenario.getHash
           bob storeOk transportOk "alice" (updateAt 8 ["alice"])
           (Some (updateAt 7 ["alice"; "bob"])) (stateAt 5) (worldAt 5)).
  - vm_compute. reflexivity.
  - apply rejected_gap. simpl. lia.
Defined.

(** A stale update that carries both signatures, with a transport that
    refuses every message: no reply is due, the error is published and
    propagates. *)
Lemma C7_stale_dual_signed_update_witness :
  let requestedUpdate := updateAt 5 ["alice"; "bob"] in
  let error :=
    ChannelUpdateError.mk StaleUpdateNonce (Some requestedUpdate)
      (Some (stateAt 5))
      (ErrorContext.mk (Some (updateAt 4 ["alice"; "bob"])) None None None) in
  transportDown "alice" (ErrorPayload error)
  = Some {| message := "peer unreachable"; stack := "send" |}
  /\ bobHandles transportDown "alice"
       (requestedUpdate, Some (updateAt 4 ["alice"; "bob"])) (worldAt 5)
     = (Rejected (ThrowUpdateError error),
        logged (worldAt 5) [PostedError (Some error)]).
Proof.
  intros requestedUpdate error. split; [reflexivity|].
  destruct (C7_error_path_replies_publishes_and_propagates
              Scenario.applyUpdate Scenario.assertSignatures Scenario.getHash
              bob storeOk transportDown "alice" requestedUpdate
              (Some (updateAt 4 ["alice"; "bob"])) (worldAt 5))
    as [(failure & Hfail & _ & _ & Hdelivered & _)
       | (previousState & response & _ & _ & _ & effect & Hlog & Heffect)].
  - rewrite Hdelivered; [|intros Hcount; vm_compute in Hcount; discriminate].
    vm_compute in Hfail. injection Hfail as <-. reflexivity.
  - exfalso. vm_compute in Hlog. injection Hlog as <-.
    destruct Heffect as [Hposted | [update Hsent]]; discriminate.
Defined.

(** A round whose first attempt the transport rejects and whose second
    attempt a state event resolves. *)
Lemma C8_one_rejection_then_state_witness :
  let update := updateAt 6 ["alice"] in
  let w := aliceAt 5 [[SendFailed {| message := "timeout"; stack := "send" |}];
                      [StateEvent (stateAt 6)]] in
  exists j : nat,
    (j <= 5)%nat
    /\ log (snd (sendWithRetry update (stateAt 5) w))
       = log w ++ failedAttempts update (stateAt 5) j
         ++ (if Nat.eqb j 5 then []
             else [attemptMessage update (stateAt 5)]).
Proof.
  intros update w.
  destruct (C8_round_retries_transport_rejections_five_times
              Scenario.applyUpdate storeOk update (stateAt 5) w)
    as (j & Hle & Hlog & _).
  - vm_compute. reflexivity.
  - exists j. split; assumption.
Defined.

(** An error message from alice about bob's proposal of nonce 6, while
    the attempt for that proposal is pending: the error carries its
    update, the matcher reads it, and the handler returns. *)
Lemma C9_error_message_witness :
  let error :=
    ChannelUpdateError.mk StaleUpdateNonce (Some (updateAt 6 ["bob"]))
      (Some (stateAt 6)) ErrorContext.none in
  inbound Scenario.applyUpdate Scenario.assertSignatures Scenario.getHash bob
    storeOk transportOk [updateAt 6 ["bob"]]
    {| VectorMessage.from := "alice";
       VectorMessage.data := None;
       VectorMessage.error := Some error |} emptyWorld
  = (Resolved tt, logged emptyWorld [PostedError (Some error)]).
Proof.
  intros error.
  destruct (C9_other_message_posts_its_error_field
              Scenario.applyUpdate Scenario.assertSignatures Scenario.getHash
              bob storeOk transportOk [updateAt 6 ["bob"]]
              {| VectorMessage.from := "alice";
                 VectorMessage.data := None;
                 VectorMessage.error := Some error |} emptyWorld)
    as [Hrun _].
  - simpl. discriminate.
  - reflexivity.
  - exact Hrun.
Defined.

(** A first [setup] update of nonce 0 whose signatures verify. *)
Lemma C10_setup_update_of_nonce_zero_witness :
  let requestedUpdate := setupAt 0 ["alice"] in
  let latest := Some (setupAt 0 ["alice"; "bob"]) in
  let error :=
    ChannelUpdateError.mk StaleUpdateNonce (Some requestedUpdate)
      (Some (emptyChannelState bob requestedUpdate))
      (ErrorContext.mk latest None None None) in
  bobHandles transportOk "alice" (requestedUpdate, latest) emptyWorld
  = (Rejected (ThrowUpdateError error),
     logged emptyWorld
       [Sent "alice" (ErrorPayload error); PostedError (Some error)]).
Proof.
  intros requestedUpdate latest error.
  destruct (C10_setup_update_needs_positive_nonce
              Scenario.applyUpdate Scenario.assertSignatures Scenario.getHash
              bob storeOk transportOk "alice" requestedUpdate latest
              emptyWorld) as (_ & _ & Hzero & _).
  - vm_compute. reflexivity.
  - reflexivity.
  - destruct Hzero as [_ Hend];
      [reflexivity|vm_compute; reflexivity|].
    apply Hend. intros _. reflexivity.
Defined.

End Runs.

(** ** Properties of the configuration *)

Section ConfigProperties.

Variable Number : Type.
Variable parseInt : string -> Number.

Local Abbreviation loadConfig := (Config.load Number parseInt).

Lemma required_inr value name v :
  Config.required value name = inr v <-> value = Some v /\ v <> "".
Proof.
  unfold Config.required, truthy. destruct value as [s|]; cbn [negb default].
  - destruct (String.eqb s "") eqn:Hs; cbn [negb].
    + apply String.eqb_eq in Hs. split; [discriminate|].
      intros [H1 H2]. by simplify_eq.
    + apply String.eqb_neq in Hs. split.
      * intros H. by simplify_eq.
      * intros [H1 H2]. by simplify_eq.
  - split; [discriminate|]. by intros [H _].
Qed.

Lemma required_inl value name e :
  Config.required value name = inl e
  <-> (value = None \/ value = Some "")
      /\ e = (name ++ " is required")%string.
Proof.
  unfold Config.required, truthy. destruct value as [s|]; cbn [negb default].
  - destruct (String.eqb s "") eqn:Hs; cbn [negb].
    + apply String.eqb_eq in Hs. subst s. split.
      * intros H. simplify_eq. split; [by right|done].
      * by intros [_ ->].
    + apply String.eqb_neq in Hs. split; [discriminate|].
      intros [[H|H] _]; by simplify_eq.
  - split.
    + intros H. simplify_eq. split; [by left|done].
    + by intros [_ ->].
Qed.

(** What a loaded config holds. *)
Lemma config_loaded env config :
  loadConfig env = inr config ->
  exists publicKey natsServers adminToken,
        Config.provided env "VECTOR_NATS_JWT_SIGNER_PUBLIC_KEY" publicKey
        /\ Config.provided env "VECTOR_NATS_SERVERS" natsServers
        /\ Config.provided env "VECTOR_ADMIN_TOKEN" adminToken
        /\ config
           = {| Config.messagingUrl := natsServers;
                Config.privateKey :=
                  env !! "VECTOR_NATS_JWT_SIGNER_PRIVATE_KEY";
                Config.publicKey := publicKey;
                Config.adminToken := adminToken;
                Config.port :=
                  parseInt (default "5040" (env !! "VECTOR_PORT")) |}.
Proof.
  unfold Config.load, Config.provided. cbv zeta.
  destruct (Config.required (env !! "VECTOR_NATS_JWT_SIGNER_PUBLIC_KEY")
              "VECTOR_NATS_JWT_SIGNER_PUBLIC_KEY") as [e|pk] eqn:Hpk;
    [discriminate|].
  destruct (Config.required (env !! "VECTOR_NATS_JWT_SIGNER_PUBLIC_KEY")
              "VECTOR_NATS_JWT_SIGNER_PRIVATE_KEY") as [e|pk'] eqn:Hpk';
    [discriminate|].
  destruct (Config.required (env !! "VECTOR_NATS_SERVERS")
              "VECTOR_NATS_SERVERS") as [e|nats] eqn:Hnats;
    [discriminate|].
  destruct (Config.required (env !! "VECTOR_ADMIN_TOKEN")
              "VECTOR_ADMIN_TOKEN") as [e|token] eqn:Htoken;
    [discriminate|].
  intros H. simplify_eq. exists pk, nats, token.
  apply required_inr in Hpk, Hnats, Htoken.
  split; [exact Hpk|]. split; [exact Hnats|]. split; [exact Htoken|].
  reflexivity.
Qed.

(** The three variables suffice for the module to load. *)
Lemma config_loads env config :
  (exists publicKey natsServers adminToken,
        Config.provided env "VECTOR_NATS_JWT_SIGNER_PUBLIC_KEY" publicKey
        /\ Config.provided env "VECTOR_NATS_SERVERS" natsServers
        /\ Config.provided env "VECTOR_ADMIN_TOKEN" adminToken
        /\ config
           = {| Config.messagingUrl := natsServers;
                Config.privateKey :=
                  env !! "VECTOR_NATS_JWT_SIGNER_PRIVATE_KEY";
                Config.publicKey := publicKey;
                Config.adminToken := adminToken;
                Config.port :=
                  parseInt (default "5040" (env !! "VECTOR_PORT")) |}) ->
  loadConfig env = inr config.
Proof.
  unfold Config.load, Config.provided. cbv zeta.
  intros (pk & nats & token & Hpk & Hnats & Htoken & ->).
  pose proof (proj2 (required_inr _ "VECTOR_NATS_JWT_SIGNER_PUBLIC_KEY" _)
                Hpk) as ->.
  pose proof (proj2 (required_inr _ "VECTOR_NATS_JWT_SIGNER_PRIVATE_KEY" _)
                Hpk) as ->.
  pose proof (proj2 (required_inr _ "VECTOR_NATS_SERVERS" _) Hnats) as ->.
  pose proof (proj2 (required_inr _ "VECTOR_ADMIN_TOKEN" _) Htoken) as ->.
  reflexivity.
Qed.

(** X21. The module loads exactly when the public key, the NATS servers
    and the admin token are set and not empty. The exported config then
    holds these three, the private key as the environment has it, absent
    if it is absent, and the port parsed from [VECTOR_PORT], an empty
    value included, or from ["5040"] when [VECTOR_PORT] is not set. *)
Theorem config_loads_iff_three_variables_are_provided env config :
  loadConfig env = inr config
  <-> exists publicKey natsServers adminToken,
        Config.provided env "VECTOR_NATS_JWT_SIGNER_PUBLIC_KEY" publicKey
        /\ Config.provided env "VECTOR_NATS_SERVERS" natsServers
        /\ Config.provided env "VECTOR_ADMIN_TOKEN" adminToken
        /\ config
           = {| Config.messagingUrl := natsServers;
                Config.privateKey :=
                  env !! "VECTOR_NATS_JWT_SIGNER_PRIVATE_KEY";
                Config.publicKey := publicKey;
                Config.adminToken := adminToken;
                Config.port :=
                  parseInt (default "5040" (env !! "VECTOR_PORT")) |}.
Proof. split; [apply config_loaded|apply config_loads]. Qed.

(** X22. The private key is never required: the module never throws the
    error that names it, and an environment from which the module loads
    still loads with the private key removed, exporting the same config
    without a private key. *)
Theorem config_never_requires_the_private_key env :
  (forall e,
   Config.load Number parseInt env = inl e ->
   e <> "VECTOR_NATS_JWT_SIGNER_PRIVATE_KEY is required")
  /\ (forall config,
      Config.load Number parseInt env = inr config ->
      Config.load Number parseInt
        (delete "VECTOR_NATS_JWT_SIGNER_PRIVATE_KEY" env)
      = inr {| Config.messagingUrl := Config.messagingUrl _ config;
               Config.privateKey := None;
               Config.publicKey := Config.publicKey _ config;
               Config.adminToken := Config.adminToken _ config;
               Config.port := Config.port _ config |}).
Proof.
  split.
  - intros e. unfold Config.load. cbv zeta.
    destruct (Config.required (env !! "VECTOR_NATS_JWT_SIGNER_PUBLIC_KEY")
                "VECTOR_NATS_JWT_SIGNER_PUBLIC_KEY") as [e1|pk] eqn:Hpk.
    { apply required_inl in Hpk as [_ ->]. intros H. by simplify_eq. }
    destruct (Config.required (env !! "VECTOR_NATS_JWT_SIGNER_PUBLIC_KEY")
                "VECTOR_NATS_JWT_SIGNER_PRIVATE_KEY") as [e2|pk'] eqn:Hpk'.
    { apply required_inr in Hpk as [Hpk Hne].
      apply required_inl in Hpk' as [[H|H] _]; rewrite Hpk in H;
        by simplify_eq. }
    destruct (Config.required (env !! "VECTOR_NATS_SERVERS")
                "VECTOR_NATS_SERVERS") as [e3|nats] eqn:Hnats.
    { apply required_inl in Hnats as [_ ->]. intros H. by simplify_eq. }
    destruct (Config.required (env !! "VECTOR_ADMIN_TOKEN")
                "VECTOR_ADMIN_TOKEN") as [e4|token] eqn:Htoken;
      [|discriminate].
    apply required_inl in Htoken as [_ ->]. intros H. by simplify_eq.
  - intros config Hload.
    apply config_loaded in Hload
      as (pk & nats & token & [Hpk ?] & [Hnats ?] & [Htoken ?] & ->).
    apply config_loads. exists pk, nats, token.
    unfold Config.provided.
    rewrite !lookup_delete_ne by done. rewrite lookup_delete_eq.
    rewrite !lookup_delete_ne by done.
    split; [by split|]. split; [by split|]. split; [by split|].
    reflexivity.
Qed.

(** X23. When the module does not load, the error names the first
    variable that is missing or empty, in the order public key, NATS
    servers, admin token. *)
Theorem config_error_names_the_first_missing_variable env e :
  loadConfig env = inl e
  <-> (truthy (env !! "VECTOR_NATS_JWT_SIGNER_PUBLIC_KEY") = false
       /\ e = "VECTOR_NATS_JWT_SIGNER_PUBLIC_KEY is required")
      \/ (truthy (env !! "VECTOR_NATS_JWT_SIGNER_PUBLIC_KEY") = true
          /\ truthy (env !! "VECTOR_NATS_SERVERS") = false
          /\ e = "VECTOR_NATS_SERVERS is required")
      \/ (truthy (env !! "VECTOR_NATS_JWT_SIGNER_PUBLIC_KEY") = true
          /\ truthy (env !! "VECTOR_NATS_SERVERS") = true
          /\ truthy (env !! "VECTOR_ADMIN_TOKEN") = false
          /\ e = "VECTOR_ADMIN_TOKEN is required").
Proof.
  unfold Config.load, Config.required. cbv zeta.
  destruct (truthy (env !! "VECTOR_NATS_JWT_SIGNER_PUBLIC_KEY"));
    destruct (truthy (env !! "VECTOR_NATS_SERVERS"));
    destruct (truthy (env !! "VECTOR_ADMIN_TOKEN")); cbn [negb];
    (split;
     [intros H;
      first [discriminate H
            |injection H as <-;
             first [left; repeat split; reflexivity
                   |right; left; repeat split; reflexivity
                   |right; right; repeat split; reflexivity]]
     |intros [[Hc ->] | [(Hc1 & Hc2 & ->) | (Hc1 & Hc2 & Hc3 & ->)]];
      first [reflexivity
            |match goal with
             | Hc : true = false |- _ => discriminate Hc
             | Hc : false = true |- _ => discriminate Hc
             end]]).
Qed.

End ConfigProperties.

(** ** Further runs on the concrete peers *)

Section MoreRuns.

Import Scenario.

Local Abbreviation bobHandles :=
  (processChannelMessage Scenario.applyUpdate Scenario.assertSignatures
     Scenario.getHash bob storeOk transportOk).
Local Abbreviation bobFails := (@handleError transportOk unit).
Local Abbreviation aliceDrives := (outbound Scenario.applyUpdate storeOk).

(** A forged update without a latest update, for a channel that bob does
    not know: the channel is missed first. *)
Lemma unknown_channel_witness :
  let requestedUpdate := updateAt 6 ["alice"; "forged"] in
  let error :=
    ChannelUpdateError.mk ChannelNotFound (Some requestedUpdate) None
      ErrorContext.none in
  bobHandles "alice" (requestedUpdate, None) emptyWorld
  = (Rejected (ThrowUpdateError error),
     logged emptyWorld [PostedError (Some error)]).
Proof.
  intros requestedUpdate error.
  destruct (unknown_channel_is_refused_before_verification
              Scenario.applyUpdate Scenario.assertSignatures Scenario.getHash
              bob storeOk transportOk "alice" requestedUpdate None emptyWorld)
    as [Hrun _].
  - reflexivity.
  - discriminate.
  - rewrite Hrun. reflexivity.
Defined.

(** A forged proposal of the next nonce. *)
Lemma bad_signatures_witness :
  let requestedUpdate := updateAt 6 ["forged"] in
  let latest := Some (updateAt 5 ["alice"; "bob"]) in
  bobHandles "alice" (requestedUpdate, latest) (worldAt 5)
  = bobFails "alice" requestedUpdate
      (ChannelUpdateError.mk BadSignatures (Some requestedUpdate)
         (Some (stateAt 5))
         (ErrorContext.mk latest None
            (Some "signature does not recover to a participant") None))
      (worldAt 5).
Proof.
  intros requestedUpdate latest.
  apply (bad_signatures_are_refused_whatever_the_nonce
           Scenario.applyUpdate Scenario.assertSignatures Scenario.getHash
           bob storeOk transportOk "alice" requestedUpdate latest (stateAt 5)
           {| message := "signature does not recover to a participant";
              stack := "assertSignatures" |} (worldAt 5)).
  - vm_compute. reflexivity.
  - vm_compute. reflexivity.
Defined.

(** Scenario C again, for its error. *)
Lemma gap_of_three_or_more_witness :
  let requestedUpdate := updateAt 8 ["alice"] in
  let latest := Some (updateAt 7 ["alice"; "bob"]) in
  bobHandles "alice" (requestedUpdate, latest) (worldAt 5)
  = bobFails "alice" requestedUpdate
      (ChannelUpdateError.mk StaleChannelNonce (Some requestedUpdate)
         (Some (stateAt 5)) (ErrorContext.mk latest None None None))
      (worldAt 5).
Proof.
  intros requestedUpdate latest.
  apply (gap_of_three_or_more_is_refused
           Scenario.applyUpdate Scenario.assertSignatures Scenario.getHash
           bob storeOk transportOk "alice" requestedUpdate latest (stateAt 5)
           (worldAt 5)).
  - vm_compute. reflexivity.
  - vm_compute. reflexivity.
  - simpl. lia.
Defined.

(** Two nonces ahead with a latest update that bob has applied already:
    it does not apply again. *)
Lemma application_failure_witness :
  let requestedUpdate := updateAt 7 ["alice"] in
  let update := updateAt 5 ["alice"; "bob"] in
  bobHandles "alice" (requestedUpdate, Some update) (worldAt 5)
  = bobFails "alice" requestedUpdate
      (ChannelUpdateError.mk ApplyUpdateFailed (Some update)
         (Some (stateAt 5))
         (ErrorContext.mk None (Some requestedUpdate)
            (Some "update nonce does not extend the state")
            (Some "applyUpdate")))
      (worldAt 5).
Proof.
  intros requestedUpdate update.
  destruct (application_failures_are_refused
              Scenario.applyUpdate Scenario.assertSignatures Scenario.getHash
              bob storeOk transportOk "alice" requestedUpdate (Some update)
              (stateAt 5) (worldAt 5)) as (_ & Hresync & _).
  - vm_compute. reflexivity.
  - vm_compute. reflexivity.
  - apply (Hresync eq_refl update
             {| message := "update nonce does not extend the state";
                stack := "applyUpdate" |}); reflexivity.
Defined.

(** Bob at nonce 5 receives the ack of nonce 7 with the update of nonce
    6 attached. *)
Lemma resync_then_update_witness :
  bobHandles "alice"
    (updateAt 7 ["alice"; "bob"], Some (updateAt 6 ["alice"; "bob"]))
    (worldAt 5)
  = (Resolved tt,
     logged (persisted (worldAt 5) (stateAt 7)) [PostedState (stateAt 7)]).
Proof.
  destruct (resync_then_update_writes_the_final_state_only
              Scenario.applyUpdate Scenario.assertSignatures Scenario.getHash
              bob storeOk transportOk "alice" (updateAt 7 ["alice"; "bob"])
              (updateAt 6 ["alice"; "bob"]) (stateAt 5) (stateAt 6)
              (stateAt 7) (worldAt 5)) as [Hack _].
  - vm_compute. reflexivity.
  - vm_compute. reflexivity.
  - simpl. lia.
  - reflexivity.
  - reflexivity.
  - reflexivity.
  - apply Hack. simpl. discriminate.
Defined.

(** An update of the next nonce that carries no signature at all. *)
Lemma unsigned_update_witness :
  bobHandles "alice" (updateAt 6 [], Some (updateAt 5 ["alice"; "bob"]))
    (worldAt 5)
  = (Resolved tt,
     logged (persisted (worldAt 5) (stateWith 6 []))
       [PostedState (stateWith 6 [])]).
Proof.
  apply (update_not_single_signed_is_stored_and_published
           Scenario.applyUpdate Scenario.assertSignatures Scenario.getHash
           bob storeOk transportOk "alice" (updateAt 6 [])
           (Some (updateAt 5 ["alice"; "bob"])) (stateAt 5)
           (stateWith 6 []) (worldAt 5)).
  - vm_compute. reflexivity.
  - vm_compute. reflexivity.
  - simpl. lia.
  - reflexivity.
  - simpl. discriminate.
  - reflexivity.
Defined.

(** Scenario A with a signer that cannot sign. *)
Lemma signer_failure_witness :
  let r := processChannelMessage Scenario.applyUpdate
             Scenario.assertSignatures Scenario.getHash lockedBob storeOk
             transportOk "alice"
             (updateAt 6 ["alice"], Some (updateAt 5 ["alice"; "bob"]))
             (worldAt 5) in
  store (snd r) = store (worldAt 5) /\ exists t, fst r = Rejected t.
Proof.
  intros r. subst r.
  destruct (signer_failure_is_reported_as_SaveChannelFailed
              Scenario.applyUpdate Scenario.assertSignatures Scenario.getHash
              lockedBob storeOk transportOk "alice" (updateAt 6 ["alice"])
              (Some (updateAt 5 ["alice"; "bob"]))
              {| message := "wallet is locked"; stack := "signMessage" |}
              (worldAt 5)) as (Hstore & Hrejected & _).
  - reflexivity.
  - reflexivity.
  - split; assumption.
Defined.

(** Scenario A with a store that refuses the write. *)
Lemma refused_write_witness :
  let requestedUpdate := updateAt 6 ["alice"] in
  let latest := Some (updateAt 5 ["alice"; "bob"]) in
  let r := processChannelMessage Scenario.applyUpdate
             Scenario.assertSignatures Scenario.getHash bob storeDown
             transportOk "alice" (requestedUpdate, latest) (worldAt 5) in
  r = bobFails "alice" requestedUpdate
        (ChannelUpdateError.mk SaveChannelFailed (Some requestedUpdate)
           (Some (stateAt 5))
           (ErrorContext.mk None None (Some "disk full") None))
        (worldAt 5)
  /\ store (snd r) = store (worldAt 5).
Proof.
  intros requestedUpdate latest r. subst r.
  apply (refused_write_is_reported_as_SaveChannelFailed
           Scenario.applyUpdate Scenario.assertSignatures Scenario.getHash
           bob storeDown transportOk "alice" requestedUpdate latest
           (stateAt 5) (stateWith 6 ["alice"])
           {| message := "disk full"; stack := "saveChannelState" |}
           (worldAt 5)).
  - vm_compute. reflexivity.
  - vm_compute. reflexivity.
  - simpl. lia.
  - reflexivity.
  - reflexivity.
  - intros _. eexists. reflexivity.
Defined.

(** Bob receives his own proposal of the next nonce back. *)
Lemma own_message_witness :
  inbound Scenario.applyUpdate Scenario.assertSignatures Scenario.getHash bob
    storeOk transportOk [updateAt 6 ["bob"]]
    {| VectorMessage.from := "bob";
       VectorMessage.data :=
         Some (updateAt 6 ["bob"], Some (updateAt 5 ["alice"; "bob"]));
       VectorMessage.error := None |} (worldAt 5)
  = (Resolved tt, worldAt 5).
Proof.
  apply (only_own_messages_leave_no_trace
           Scenario.applyUpdate Scenario.assertSignatures Scenario.getHash
           bob storeOk transportOk [updateAt 6 ["bob"]]).
  reflexivity.
Defined.

(** Alice proposes on a channel that her store does not know. *)
Lemma unknown_channel_of_the_driver_witness :
  let update := setupAt 1 ["alice"] in
  let w := aliceAt 5 [[StateEvent (stateAt 1)]] in
  aliceDrives update w
  = (Rejected
       (ThrowUpdateError
          (ChannelUpdateError.mk ChannelNotFound (Some update) None
             ErrorContext.none)), w).
Proof.
  intros update w.
  apply (driver_sends_unless_the_channel_is_unknown
           Scenario.applyUpdate storeOk update w).
  vm_compute. reflexivity.
Defined.

(** The state event of nonce 6 resolves alice's proposal of nonce 6. *)
Lemma returned_state_witness :
  let update := updateAt 6 ["alice"] in
  ChannelState.channelAddress (stateAt 6)
  = ChannelUpdate.channelAddress update
  /\ ChannelState.latestNonce (stateAt 6) = ChannelUpdate.nonce update.
Proof.
  intros update.
  apply (driver_returns_a_state_of_the_update
           Scenario.applyUpdate storeOk update
           (aliceAt 5 [[StateEvent (stateAt 6)]]) (stateAt 6)
           (snd (aliceDrives update (aliceAt 5 [[StateEvent (stateAt 6)]])))).
  vm_compute. reflexivity.
Defined.

(** Scenario D: a stale reply, a resync, and a second round. *)
Lemma two_rounds_witness :
  let update := updateAt 6 ["alice"] in
  let w := aliceAt 5 [[ErrorEvent (Some (staleAt 6))];
                      [ErrorEvent (Some (staleAt 6))]] in
  exists j1 : nat,
    (j1 <= 5)%nat
    /\ (log (snd (aliceDrives update w))
        = log w ++ roundLog update (stateAt 5) j1
        \/ exists j2 : nat,
             (j2 <= 5)%nat
             /\ log (snd (aliceDrives update w))
                = log w ++ roundLog update (stateAt 5) j1
                  ++ roundLog update (stateAt 5) j2).
Proof.
  intros update w.
  apply (driver_log_is_one_or_two_rounds
           Scenario.applyUpdate storeOk update (stateAt 5) w).
  vm_compute. reflexivity.
Defined.

(** Nothing happens after alice's message has left. *)
Lemma no_deadline_witness :
  let update := updateAt 6 ["alice"] in
  aliceDrives update (aliceAt 5 [])
  = (Pending, attempted update (stateAt 5) (aliceAt 5 [])).
Proof.
  intros update.
  apply (driver_waits_without_deadline
           Scenario.applyUpdate storeOk update (stateAt 5) (aliceAt 5 [])).
  - vm_compute. reflexivity.
  - reflexivity.
Defined.

(** An error of reason [BadSignatures] resolves alice's attempt. *)
Lemma other_reason_witness :
  let update := updateAt 6 ["alice"] in
  let w := aliceAt 5 [[ErrorEvent (Some foreignError)]] in
  aliceDrives update w
  = (Rejected
       (ThrowUpdateError
          (ChannelUpdateError.mk BadSignatures (Some update)
             (Some (stateAt 5)) ErrorContext.none)),
     attempted update (stateAt 5) w).
Proof.
  intros update w.
  apply (driver_rethrows_other_reasons
           Scenario.applyUpdate storeOk update (stateAt 5) foreignError w).
  - vm_compute. reflexivity.
  - reflexivity.
  - simpl. discriminate.
Defined.

(** A [StaleUpdateNonce] error without a state resolves alice's
    attempt. *)
Lemma stale_error_without_state_witness :
  let update := updateAt 6 ["alice"] in
  let w := aliceAt 5 [[ErrorEvent (Some staleWithoutState)]] in
  aliceDrives update w
  = (Rejected (ThrowError (typeErrorOfUndefined "latestUpdate")),
     attempted update (stateAt 5) w).
Proof.
  intros update w.
  destruct (driver_needs_the_state_of_a_stale_error
              Scenario.applyUpdate storeOk update (stateAt 5)
              staleWithoutState w) as [Hcrash _].
  - vm_compute. reflexivity.
  - reflexivity.
  - reflexivity.
  - apply Hcrash. reflexivity.
Defined.

End MoreRuns.
